(** * Smart Reminders: a shallow embedding of
      [custom_components/smart_reminders/__init__.py]

    The component keeps a registry of reminders, arms one host timer per
    reminder, and on each timer fire dispatches the reminder's actions,
    emits a bus event and either re-arms the reminder (recurring) or drops
    it (one-off).

    Modelling choices
    - a [datetime] is a reading in hours together with whether it carries
      a time zone; ordering a naive and an aware one raises, as in Python;
    - Python exceptions are values of [exn]; code that may raise lives in
      the monad [M], which threads the observable state [world] and stops
      at the first exception, keeping the state reached so far;
    - [Reminder] objects are mutable and shared between the manager's dict
      and the timer callbacks, so they live in a store ([heap]) and are
      passed around by reference ([loc]);
    - the callback [lambda _: self._handle_trigger(reminder)] is
      represented by the reference it captures;
    - the host ([hass]) is observed through what the component asks of it:
      the tasks it creates, the events it fires and the timers it arms. *)

From Stdlib Require Import ZArith Ascii String List Lia.
From stdpp Require Import base option list strings sorting gmap fin_maps.

Local Open Scope string_scope.
Local Open Scope list_scope.
Local Open Scope Z_scope.

(** ** Python values and exceptions *)

(** The values that travel in service payloads ([Dict[str, Any]]). *)
Inductive pyval :=
| PNone
| PBool (b : bool)
| PInt (z : Z)
| PStr (s : string).

(** An [Optional[str]] attribute seen as a payload value. *)
Definition pyopt (o : option string) : pyval :=
  match o with
  | Some s => PStr s
  | None => PNone
  end.

Inductive exn :=
| KeyError (key : string)
| TypeError (msg : string)
| ValueError (msg : string).

(** Outcome of a computation that has no effect on the state. *)
Inductive result (A : Type) :=
| Ok (a : A)
| Raise (e : exn).
Arguments Ok {A} a.
Arguments Raise {A} e.

Definition rbind {A B} (c : result A) (k : A -> result B) : result B :=
  match c with
  | Ok a => k a
  | Raise e => Raise e
  end.

#[global] Instance result_ret : MRet result := fun A a => Ok a.
#[global] Instance result_bind : MBind result := fun A B k c => rbind c k.

(** Truthiness of an [Optional[str]]: [None] and the empty string are
    falsy. *)
Definition truthy (o : option string) : bool :=
  match o with
  | Some s => negb (String.eqb s "")
  | None => false
  end.

(** The string behind an [Optional[str]] that has passed a truthiness
    guard. *)
Definition str_of (o : option string) : string := default "" o.

(** [s.split(".", 1)]: cut at the first dot, if there is one. *)
Fixpoint cut_at_dot (s : string) : option (string * string) :=
  match s with
  | EmptyString => None
  | String c s' =>
      if Ascii.eqb c "."%char then Some (EmptyString, s')
      else match cut_at_dot s' with
           | Some (a, b) => Some (String c a, b)
           | None => None
           end
  end.

Definition split_dot_1 (s : string) : list string :=
  match cut_at_dot s with
  | Some (a, b) => [a; b]
  | None => [s]
  end.

(** [x, y = l]: unpacking into exactly two names. *)
Definition unpack2 (l : list string) : result (string * string) :=
  match l with
  | [a; b] => Ok (a, b)
  | [] | [_] => Raise (ValueError "not enough values to unpack")
  | _ => Raise (ValueError "too many values to unpack")
  end.

(** [d.update(other)]: every item of [other] is stored into [d]. *)
Definition dict_update (d other : gmap string pyval) : gmap string pyval :=
  map_fold (fun k v acc => <[k:=v]> acc) d other.

(** ** Constants *)

Definition DOMAIN : string := "smart_reminders".
Definition SERVICE_ADD_REMINDER : string := "add_reminder".
Definition EVENT_REMINDER_TRIGGERED : string := "reminder_triggered".

(** ** Timestamps

    A [datetime] is naive or aware (it has a [tzinfo]).  [stamp] is its
    reading, in hours: the instant on the UTC line for an aware one, what
    its clock shows for a naive one.  Python orders two naive datetimes by
    their readings and two aware ones by their instants, and refuses to
    order a naive and an aware one. *)
Record datetime := { stamp : Z; aware : bool }.

Definition naive (t : Z) : datetime := {| stamp := t; aware := false |}.
Definition utc (t : Z) : datetime := {| stamp := t; aware := true |}.

Definition compare_error : exn :=
  TypeError "can't compare offset-naive and offset-aware datetimes".

(** [a < b] and [a <= b] *)
Definition dt_lt (a b : datetime) : result bool :=
  if Bool.eqb (aware a) (aware b) then Ok (stamp a <? stamp b)
  else Raise compare_error.

Definition dt_le (a b : datetime) : result bool :=
  if Bool.eqb (aware a) (aware b) then Ok (stamp a <=? stamp b)
  else Raise compare_error.

(** [datetime.utcnow()] when the clock reads [now]: a naive datetime. *)
Definition utcnow (now : Z) : datetime := naive now.

(** ** Recurrence objects

    [dateutil.rrule] objects are used through one method only.  An rrule
    generates its occurrences in order, and finitely many of them (the
    generator stops at the bound of the rule or at the last representable
    year); [after] walks through them and returns the first one that
    compares as later than [dt].  Each occurrence it passes is compared
    with [dt], and a comparison that raises ends the walk. *)
Record rruleobj := { occurrences : list datetime }.

Fixpoint first_after (l : list datetime) (dt : datetime) (inc : bool)
  : result (option datetime) :=
  match l with
  | [] => Ok None
  | i :: l' =>
      b ← (if inc then dt_le dt i else dt_lt dt i);
      if b : bool then Ok (Some i) else first_after l' dt inc
  end.

Definition after (rr : rruleobj) (dt : datetime) (inc : bool)
  : result (option datetime) :=
  first_after (occurrences rr) dt inc.

(** ** Data model *)

Record ReminderAction := {
  type : string;
  service : option string;
  entity_id : option string;
  data : gmap string pyval
}.

Definition handle := nat.

Record Reminder := {
  message : string;
  start : datetime;
  rrule : option string;
  actions : list ReminderAction;
  id : string;
  _cancel : option handle;
  _rrule : option rruleobj
}.

Definition set_cancel (h : handle) (r : Reminder) : Reminder :=
  {| message := message r; start := start r; rrule := rrule r;
     actions := actions r; id := id r; _cancel := Some h;
     _rrule := _rrule r |}.

(** [Reminder.next_occurrence]; [now] is what the clock reads when
    [datetime.utcnow()] is called. *)
Definition next_occurrence (r : Reminder) (now : Z)
  : result (option datetime) :=
  match _rrule r with
  | Some rr => after rr (utcnow now) false
  | None => Ok None
  end.

(** ** The host and the observable state *)

Definition loc := nat.

Record service_call := {
  sc_domain : string;
  sc_service : string;
  sc_data : gmap string pyval
}.

Record event := {
  ev_type : string;
  ev_data : gmap string pyval
}.

(** A timer armed by [async_track_point_in_utc_time]: its unsubscribe
    handle, the datetime it was armed for and the reminder its callback
    captured. *)
Record timer := {
  tm_handle : handle;
  tm_when : datetime;
  tm_reminder : loc
}.

Record world := {
  heap : gmap loc Reminder;        (* the Reminder objects *)
  _reminders : gmap string loc;    (* ReminderManager._reminders *)
  timers : list timer;             (* armed, not yet fired *)
  armed : nat;                     (* timers armed so far *)
  tasks : list service_call;       (* hass.async_create_task, in order *)
  bus : list event                 (* hass.bus.async_fire, in order *)
}.

Definition M (A : Type) : Type := world -> result A * world.

Definition ret {A} (a : A) : M A := fun w => (Ok a, w).

Definition bind {A B} (c : M A) (k : A -> M B) : M B :=
  fun w =>
    match c w with
    | (Ok a, w') => k a w'
    | (Raise e, w') => (Raise e, w')
    end.

Definition lift {A} (c : result A) : M A := fun w => (c, w).

#[global] Instance M_ret : MRet M := fun A a => ret a.
#[global] Instance M_bind : MBind M := fun A B k c => bind c k.

(** [for x in l: body(x)] *)
Fixpoint for_each {A} (l : list A) (body : A -> M unit) : M unit :=
  match l with
  | [] => ret tt
  | x :: l' => body x;; for_each l' body
  end.

(** [[f(x) for x in l]] *)
Fixpoint comprehension {A B} (f : A -> result B) (l : list A)
  : result (list B) :=
  match l with
  | [] => Ok []
  | x :: l' => y ← f x; ys ← comprehension f l'; Ok (y :: ys)
  end.

(** *** Host primitives *)

(** [hass.async_create_task(hass.services.async_call(...))]: the call is
    queued and not awaited; nothing it does later reaches the caller. *)
Definition async_create_task (c : service_call) : M unit :=
  fun w =>
    (Ok tt,
     {| heap := heap w; _reminders := _reminders w; timers := timers w;
        armed := armed w; tasks := tasks w ++ [c]; bus := bus w |}).

(** [hass.bus.async_fire(event_type, event_data)] *)
Definition async_fire (ty : string) (d : gmap string pyval) : M unit :=
  fun w =>
    (Ok tt,
     {| heap := heap w; _reminders := _reminders w; timers := timers w;
        armed := armed w; tasks := tasks w;
        bus := bus w ++ [{| ev_type := ty; ev_data := d |}] |}).

(** [async_track_point_in_utc_time(hass, lambda _: ..., when)]: arms one
    timer and returns its unsubscribe handle.  A datetime already in the
    past is accepted like any other, and so is a naive one. *)
Definition async_track_point_in_utc_time (l : loc) (when : datetime)
  : M handle :=
  fun w =>
    (Ok (armed w),
     {| heap := heap w; _reminders := _reminders w;
        timers := timers w ++
                  [{| tm_handle := armed w; tm_when := when;
                      tm_reminder := l |}];
        armed := S (armed w); tasks := tasks w; bus := bus w |}).

(** *** The store of Reminder objects *)

(** Reading through a reference.  Python has no dangling references; the
    [None] branch only makes the function total. *)
Definition deref (l : loc) : M Reminder :=
  fun w =>
    match heap w !! l with
    | Some r => (Ok r, w)
    | None => (Raise (TypeError "dangling reference"), w)
    end.

Definition store_cancel (l : loc) (h : handle) : M unit :=
  fun w =>
    (Ok tt,
     {| heap := alter (set_cancel h) l (heap w);
        _reminders := _reminders w; timers := timers w; armed := armed w;
        tasks := tasks w; bus := bus w |}).

Definition alloc (r : Reminder) : M loc :=
  fun w =>
    let l := fresh (dom (heap w)) in
    (Ok l,
     {| heap := <[l:=r]> (heap w); _reminders := _reminders w;
        timers := timers w; armed := armed w; tasks := tasks w;
        bus := bus w |}).

(** [self._reminders[key] = l] *)
Definition reminders_setitem (key : string) (l : loc) : M unit :=
  fun w =>
    (Ok tt,
     {| heap := heap w; _reminders := <[key:=l]> (_reminders w);
        timers := timers w; armed := armed w; tasks := tasks w;
        bus := bus w |}).

(** [self._reminders.pop(key, None)] *)
Definition reminders_pop (key : string) : M unit :=
  fun w =>
    (Ok tt,
     {| heap := heap w; _reminders := delete key (_reminders w);
        timers := timers w; armed := armed w; tasks := tasks w;
        bus := bus w |}).

(** ** ReminderManager *)

(** [ReminderManager._schedule] *)
Definition _schedule (reminder : loc) (when : datetime) : M unit :=
  h ← async_track_point_in_utc_time reminder when;
  store_cancel reminder h.

(** [ReminderManager.add] *)
Definition add (reminder : loc) : M unit :=
  r ← deref reminder;
  reminders_setitem (id r) reminder;;
  _schedule reminder (start r).

(** The body of the loop over [reminder.actions] in [_handle_trigger]. *)
Definition dispatch (r : Reminder) (action : ReminderAction) : M unit :=
  if String.eqb (type action) "tts" && truthy (entity_id action) then
    async_create_task
      {| sc_domain := "tts";
         sc_service := "google_translate_say";
         sc_data := <["entity_id" := pyopt (entity_id action)]>
                      (<["message" := PStr (message r)]> ∅) |}
  else if String.eqb (type action) "notify" && truthy (service action) then
    p ← lift (unpack2 (split_dot_1 (str_of (service action))));
    let data := dict_update (<["message" := PStr (message r)]> ∅)
                            (data action) in
    async_create_task
      {| sc_domain := fst p; sc_service := snd p; sc_data := data |}
  else ret tt.

(** [ReminderManager._handle_trigger]; [now] is what the clock reads when
    [next_occurrence] is called. *)
Definition _handle_trigger (reminder : loc) (now : Z) : M unit :=
  r ← deref reminder;
  for_each (actions r) (dispatch r);;
  async_fire EVENT_REMINDER_TRIGGERED
    (<["id" := PStr (id r)]> (<["message" := PStr (message r)]> ∅));;
  next_time ← lift (next_occurrence r now);
  match next_time with
  | Some next_time => _schedule reminder next_time
  | None => reminders_pop (id r)
  end.

(** The host delivering an armed timer: the timer is spent, and its
    callback runs [_handle_trigger] on the reminder it captured. *)
Definition fire (h : handle) (now : Z) : M unit :=
  fun w =>
    match find (fun t => Nat.eqb (tm_handle t) h) (timers w) with
    | Some t =>
        _handle_trigger (tm_reminder t) now
          {| heap := heap w; _reminders := _reminders w;
             timers := filter (fun t => tm_handle t ≠ h) (timers w);
             armed := armed w; tasks := tasks w; bus := bus w |}
    | None => (Ok tt, w)
    end.

(** ** Construction and the [add_reminder] service *)

(** The [start] argument: free text or a datetime. *)
Inductive start_arg :=
| StartText (s : string)
| StartTime (t : datetime).

(** One entry of the [actions] list of the payload, a dict whose items
    [handle_add] passes to [ReminderAction] as keyword arguments (the
    double-star call).  [None] is a key the dict does not have;
    [kw_other] lists its keys that are not fields of the dataclass. *)
Record action_kwargs := {
  kw_type : option string;
  kw_service : option string;
  kw_entity_id : option string;
  kw_data : option (gmap string pyval);
  kw_other : list string
}.

(** The payload of the service call, [call.data]. *)
Record call_data := {
  d_message : option string;
  d_start : option start_arg;
  d_rrule : option string;
  d_actions : option (list action_kwargs)
}.

(** [d[key]] *)
Definition getitem {A} (key : string) (o : option A) : result A :=
  match o with
  | Some a => Ok a
  | None => Raise (KeyError key)
  end.

(** [ReminderAction] called on the items of [a]: [type] has no default,
    the other fields do, and a keyword that is not a field is refused. *)
Definition ReminderAction_init (a : action_kwargs) : result ReminderAction :=
  match kw_other a with
  | k :: _ => Raise (TypeError ("unexpected keyword argument " ++ k)%string)
  | [] =>
      match kw_type a with
      | None => Raise (TypeError "missing required argument type")
      | Some ty =>
          Ok {| type := ty; service := kw_service a;
                entity_id := kw_entity_id a;
                data := default ∅ (kw_data a) |}
      end
  end.

Section Component.

(** What the component requires of its libraries:
    [dateparser.parse] yields a datetime, naive or aware, or nothing, and
    [rrulestr(rule, dtstart=...)] yields a recurrence object or raises on
    a rule it cannot compile. *)
Variable dateparser_parse : string -> option datetime.
Variable rrulestr : string -> datetime -> result rruleobj.

(** [Reminder.__post_init__]: the resolved [start] and [_rrule]. *)
Definition __post_init__ (start : start_arg) (rrule : option string)
  : result (datetime * option rruleobj) :=
  start' ← match start with
           | StartText s =>
               match dateparser_parse s with
               | None =>
                   Raise (ValueError
                            ("Could not parse start datetime: " ++ s)%string)
               | Some parsed => Ok parsed
               end
           | StartTime t => Ok t
           end;
  if truthy rrule then
    rr ← rrulestr (str_of rrule) start';
    Ok (start', Some rr)
  else Ok (start', None).

(** [Reminder(message=..., start=..., rrule=..., actions=..., id=...)]:
    the object exists for its caller only if [__post_init__] returns. *)
Definition Reminder_init (message : string) (start : start_arg)
    (rrule : option string) (actions : list ReminderAction) (id : string)
  : result Reminder :=
  p ← __post_init__ start rrule;
  Ok {| message := message; start := fst p; rrule := rrule;
        actions := actions; id := id; _cancel := None;
        _rrule := snd p |}.

(** [handle_add]; [uuid] is the value [uuid.uuid4().hex] draws for the
    new reminder. *)
Definition handle_add (call : call_data) (uuid : string) : M unit :=
  actions ← lift (comprehension ReminderAction_init
                    (default [] (d_actions call)));
  message ← lift (getitem "message" (d_message call));
  start ← lift (getitem "start" (d_start call));
  r ← lift (Reminder_init message start (d_rrule call) actions uuid);
  reminder ← alloc r;
  add reminder.

End Component.

(** ** Observations used in the statements

    The dispatch loop only ever appends to the task queue.  [nothing] is
    the state of a host that has seen nothing yet, [add_tasks] the state
    after more calls were queued, [calls_of r a] what the dispatch
    capability receives when [a] is dispatched on its own, and
    [outcome_of r a] whether that raises. *)

Definition nothing : world :=
  {| heap := ∅; _reminders := ∅; timers := []; armed := 0%nat;
     tasks := []; bus := [] |}.

Definition add_tasks (cs : list service_call) (w : world) : world :=
  {| heap := heap w; _reminders := _reminders w; timers := timers w;
     armed := armed w; tasks := tasks w ++ cs; bus := bus w |}.

Definition calls_of (r : Reminder) (a : ReminderAction) : list service_call :=
  tasks (dispatch r a nothing).2.

Definition outcome_of (r : Reminder) (a : ReminderAction) : result unit :=
  (dispatch r a nothing).1.

(** The outcome of the whole loop, and the calls it queued. *)
Fixpoint loop_outcome (r : Reminder) (acts : list ReminderAction) : result unit :=
  match acts with
  | [] => Ok tt
  | a :: acts' =>
      match outcome_of r a with
      | Ok _ => loop_outcome r acts'
      | Raise e => Raise e
      end
  end.

Fixpoint loop_calls (r : Reminder) (acts : list ReminderAction)
  : list service_call :=
  match acts with
  | [] => []
  | a :: acts' =>
      match outcome_of r a with
      | Ok _ => calls_of r a ++ loop_calls r acts'
      | Raise _ => []
      end
  end.

Definition add_event (e : event) (w : world) : world :=
  {| heap := heap w; _reminders := _reminders w; timers := timers w;
     armed := armed w; tasks := tasks w; bus := bus w ++ [e] |}.

Definition triggered (r : Reminder) : event :=
  {| ev_type := EVENT_REMINDER_TRIGGERED;
     ev_data := <["id" := PStr (id r)]> (<["message" := PStr (message r)]> ∅) |}.

(** The state left by [_schedule reminder when]. *)
Definition rearmed (reminder : loc) (when : datetime) (w : world) : world :=
  {| heap := alter (set_cancel (armed w)) reminder (heap w);
     _reminders := _reminders w;
     timers := timers w ++ [{| tm_handle := armed w; tm_when := when;
                               tm_reminder := reminder |}];
     armed := S (armed w); tasks := tasks w; bus := bus w |}.

(** The state left by [self._reminders.pop(key, None)]. *)
Definition retired (key : string) (w : world) : world :=
  {| heap := heap w; _reminders := delete key (_reminders w);
     timers := timers w; armed := armed w; tasks := tasks w; bus := bus w |}.

(** An action that [_handle_trigger] passes over: its [type] is neither of
    the two known ones, or the target its type needs ([entity_id] for
    [tts], [service] for [notify]) is missing or empty. *)
Definition malformed (a : ReminderAction) : bool :=
  if String.eqb (type a) "tts" then negb (truthy (entity_id a))
  else if String.eqb (type a) "notify" then negb (truthy (service a))
  else true.

Definition with_actions (acts : list ReminderAction) (r : Reminder) : Reminder :=
  {| message := message r; start := start r; rrule := rrule r;
     actions := acts; id := id r; _cancel := _cancel r;
     _rrule := _rrule r |}.

(** The state in which the object behind [l] is [r]. *)
Definition with_object (l : loc) (r : Reminder) (w : world) : world :=
  {| heap := <[l:=r]> (heap w); _reminders := _reminders w;
     timers := timers w; armed := armed w; tasks := tasks w; bus := bus w |}.

(** What the manager and the host can tell of a run: its outcome, the
    registry, the timers, the task queue and the bus. *)
Definition observe (x : result unit * world) :=
  (x.1, _reminders x.2, timers x.2, armed x.2, tasks x.2, bus x.2).

(** ** Sample inputs

    A toy host and a few concrete reminders, for running the definitions
    above. *)

(** A date parser that understands two phrases, one without a time zone
    and one with. *)
Definition sample_parse (s : string) : option datetime :=
  if String.eqb s "noon" then Some (naive 12)
  else if String.eqb s "12:00Z" then Some (utc 12)
  else None.

(** A rule compiler that understands one rule, two daily occurrences from
    the anchor, in the time zone of the anchor if it has one. *)
Definition sample_rrulestr (rule : string) (dtstart : datetime)
  : result rruleobj :=
  if String.eqb rule "FREQ=DAILY;COUNT=2"
  then Ok {| occurrences :=
               [dtstart;
                {| stamp := stamp dtstart + 24; aware := aware dtstart |}] |}
  else Raise (ValueError "unknown rrule").

(** A notify action whose service is not of the form [domain.name]. *)
Definition dotless_action : ReminderAction :=
  {| type := "notify"; service := Some "notify"; entity_id := None;
     data := ∅ |}.

(** A one-off reminder that holds it, registered under its id and armed
    for its start. *)
Definition dotless_reminder : Reminder :=
  {| message := "Take pills"; start := naive 12; rrule := None;
     actions := [dotless_action]; id := "r1"; _cancel := Some 0%nat;
     _rrule := None |}.

Definition dotless_world : world :=
  {| heap := {[ 0%nat := dotless_reminder ]};
     _reminders := {[ "r1" := 0%nat ]};
     timers := [{| tm_handle := 0%nat; tm_when := naive 12;
                   tm_reminder := 0%nat |}];
     armed := 1; tasks := []; bus := [] |}.

(** The state in which the timer with handle [h] is spent. *)
Definition spent (h : handle) (w : world) : world :=
  {| heap := heap w; _reminders := _reminders w;
     timers := filter (fun t => tm_handle t ≠ h) (timers w);
     armed := armed w; tasks := tasks w; bus := bus w |}.

(** The daily reminder of two occurrences, as [Reminder_init] builds it
    from the phrase and the rule the toy host understands. *)
Definition daily_reminder : Reminder :=
  {| message := "Take pills"; start := naive 12;
     rrule := Some "FREQ=DAILY;COUNT=2"; actions := []; id := "r2";
     _cancel := None;
     _rrule := Some {| occurrences := [naive 12; naive 36] |} |}.

Definition daily_world : world :=
  {| heap := {[ 0%nat := daily_reminder ]};
     _reminders := {[ "r2" := 0%nat ]};
     timers := [{| tm_handle := 0%nat; tm_when := naive 12;
                   tm_reminder := 0%nat |}];
     armed := 1; tasks := []; bus := [] |}.

(** Three actions: speech, a notification with a title of its own, and a
    notification that overrides the message; and two that are passed
    over. *)
Definition say_action : ReminderAction :=
  {| type := "tts"; service := None; entity_id := Some "media_player.kitchen";
     data := ∅ |}.

Definition titled_action : ReminderAction :=
  {| type := "notify"; service := Some "mobile_app.notify"; entity_id := None;
     data := {[ "title" := PStr "Reminder" ]} |}.

Definition override_action : ReminderAction :=
  {| type := "notify"; service := Some "notify.phone"; entity_id := None;
     data := {[ "message" := PStr "Now!" ]} |}.

Definition unknown_action : ReminderAction :=
  {| type := "email"; service := Some "smtp.send"; entity_id := None;
     data := ∅ |}.

Definition untargeted_action : ReminderAction :=
  {| type := "tts"; service := None; entity_id := None; data := ∅ |}.

Definition busy_reminder (acts : list ReminderAction) : Reminder :=
  {| message := "Take pills"; start := naive 12; rrule := None;
     actions := acts; id := "r3"; _cancel := Some 0%nat; _rrule := None |}.

Definition busy_world (acts : list ReminderAction) : world :=
  {| heap := {[ 0%nat := busy_reminder acts ]};
     _reminders := {[ "r3" := 0%nat ]};
     timers := []; armed := 1; tasks := []; bus := [] |}.

(** Add requests: one whose start is text the parser does not resolve, one
    without a message, one with an empty message. *)
Definition unparsed_call : call_data :=
  {| d_message := Some "Take pills"; d_start := Some (StartText "");
     d_rrule := None; d_actions := None |}.

Definition no_message_call : call_data :=
  {| d_message := None; d_start := Some (StartTime (naive 12));
     d_rrule := None; d_actions := None |}.

Definition empty_message_call : call_data :=
  {| d_message := Some ""; d_start := Some (StartTime (naive 12));
     d_rrule := None; d_actions := None |}.

(** A second reminder object that carries the id of the registered daily
    reminder, not yet added. *)
Definition twin_reminder : Reminder :=
  {| message := "Water plants"; start := naive 20; rrule := None;
     actions := []; id := "r2"; _cancel := None; _rrule := None |}.

Definition twin_world : world :=
  {| heap := <[ 1%nat := twin_reminder ]> (heap daily_world);
     _reminders := _reminders daily_world; timers := timers daily_world;
     armed := 1; tasks := []; bus := [] |}.

(** ** Further observations *)

(** Whether a string holds a dot. *)
Fixpoint has_dot (s : string) : bool :=
  match s with
  | EmptyString => false
  | String c s' => Ascii.eqb c "."%char || has_dot s'
  end.

(** A notify action that passes the guard of the loop and whose service
    is not of the form [domain.name]. *)
Definition unsplittable (a : ReminderAction) : bool :=
  String.eqb (type a) "notify" && truthy (service a)
  && negb (has_dot (str_of (service a))).

(** The datetime a [start] argument stands for, if any. *)
Definition resolved (dateparser_parse : string -> option datetime)
    (st : start_arg) : option datetime :=
  match st with
  | StartText s => dateparser_parse s
  | StartTime t => Some t
  end.

(** An occurrence the walk of [after] passes over at clock reading
    [now]: it is naive and not later than [now]. *)
Definition passed (now : Z) (i : datetime) : Prop :=
  aware i = false /\ stamp i <= now.

(** The order of occurrences generated one after the other. *)
Definition earlier (a b : datetime) : Prop := stamp a < stamp b.

(** An entry of the [actions] list that [ReminderAction] refuses: it has a
    key that is not a field, or no [type]. *)
Definition refused (a : action_kwargs) : bool :=
  match kw_other a, kw_type a with
  | [], Some _ => false
  | _, _ => true
  end.

(** The registry and the timers agree: the handles of the armed timers
    are distinct handles the host has issued; no object has two timers;
    every armed timer belongs to an object that is registered under its id
    and whose [_cancel] is the handle of that timer; and every registered
    id leads to an object of that id that has a timer. *)
Record consistent (w : world) : Prop := {
  timers_issued :
    forall t, t ∈ timers w -> (tm_handle t < armed w)%nat;
  handles_distinct : NoDup (tm_handle <$> timers w);
  one_timer_each : NoDup (tm_reminder <$> timers w);
  timer_registered :
    forall t, t ∈ timers w ->
      exists r,
        heap w !! tm_reminder t = Some r /\
        _reminders w !! id r = Some (tm_reminder t) /\
        _cancel r = Some (tm_handle t);
  registered_armed :
    forall k l, _reminders w !! k = Some l ->
      exists r t,
        heap w !! l = Some r /\ id r = k /\
        t ∈ timers w /\ tm_reminder t = l
}.

(** The host delivering the timers of one reminder on time: the timer
    with handle [h] is delivered when the clock shows the reading the
    timer was armed for, and as long as the trigger re-arms the reminder
    the timer it armed is delivered next, at its reading in turn.  The
    result carries the datetimes of the deliveries, in order. *)
Fixpoint deliver_on_time (fuel : nat) (h : handle) (w : world)
  : result unit * world * list datetime :=
  match fuel with
  | O => (Ok tt, w, [])
  | S n =>
      match find (fun t => Nat.eqb (tm_handle t) h) (timers w) with
      | None => (Ok tt, w, [])
      | Some t =>
          match fire h (stamp (tm_when t)) w with
          | (Ok _, w') =>
              let '(res, w'', log) := deliver_on_time n (armed w) w' in
              (res, w'', tm_when t :: log)
          | (Raise e, w') => (Raise e, w', [tm_when t])
          end
      end
  end.

(** ** Further sample inputs *)

(** An entry of an [actions] list in order, and one that carries the keys
    [kind] and [target], which are not fields of [ReminderAction]. *)
Definition titled_entry : action_kwargs :=
  {| kw_type := Some "notify"; kw_service := Some "mobile_app.notify";
     kw_entity_id := None; kw_data := Some {[ "title" := PStr "Reminder" ]};
     kw_other := [] |}.

Definition bare_entry : action_kwargs :=
  {| kw_type := Some "tts"; kw_service := None;
     kw_entity_id := Some "media_player.kitchen"; kw_data := None;
     kw_other := [] |}.

Definition foreign_entry : action_kwargs :=
  {| kw_type := None; kw_service := None; kw_entity_id := None;
     kw_data := None; kw_other := ["kind"; "target"] |}.

(** Requests: one in order, one with a refused entry and nothing else,
    one with a rule the toy compiler refuses. *)
Definition full_call : call_data :=
  {| d_message := Some "Take pills"; d_start := Some (StartText "noon");
     d_rrule := Some "FREQ=DAILY;COUNT=2";
     d_actions := Some [bare_entry; titled_entry] |}.

Definition foreign_call : call_data :=
  {| d_message := None; d_start := None; d_rrule := None;
     d_actions := Some [titled_entry; foreign_entry] |}.

Definition hourly_call : call_data :=
  {| d_message := Some "Take pills"; d_start := Some (StartTime (naive 12));
     d_rrule := Some "FREQ=HOURLY"; d_actions := None |}.

(** The state in which the twin of the daily reminder has been added
    under the id of the daily reminder. *)
Definition orphan_world : world := (add 1%nat twin_world).2.

(** The reminder built from a start that carries its time zone and the
    daily rule: its occurrences are aware. *)
Definition aware_reminder : Reminder :=
  {| message := "Take pills"; start := utc 12;
     rrule := Some "FREQ=DAILY;COUNT=2"; actions := []; id := "r5";
     _cancel := None;
     _rrule := Some {| occurrences := [utc 12; utc 36] |} |}.

(** A request for a daily reminder of two occurrences that holds the
    dotless notify action, and the state after it was added under the id
    [r4]: the reminder is registered and armed for its start. *)
Definition dotless_entry : action_kwargs :=
  {| kw_type := Some "notify"; kw_service := Some "notify";
     kw_entity_id := None; kw_data := None; kw_other := [] |}.

Definition stuck_call : call_data :=
  {| d_message := Some "Take pills"; d_start := Some (StartText "noon");
     d_rrule := Some "FREQ=DAILY;COUNT=2";
     d_actions := Some [dotless_entry] |}.

Definition stuck_reminder : Reminder :=
  {| message := "Take pills"; start := naive 12;
     rrule := Some "FREQ=DAILY;COUNT=2"; actions := [dotless_action];
     id := "r4"; _cancel := Some 0%nat;
     _rrule := Some {| occurrences := [naive 12; naive 36] |} |}.

Definition stuck_world : world :=
  {| heap := {[ 0%nat := stuck_reminder ]};
     _reminders := {[ "r4" := 0%nat ]};
     timers := [{| tm_handle := 0%nat; tm_when := naive 12;
                   tm_reminder := 0%nat |}];
     armed := 1; tasks := []; bus := [] |}.


(** * Properties *)

(** ** Running the monad *)

Lemma bind_run {A B} (c : M A) (k : A -> M B) (w : world) :
  (c ≫= k) w = match c w with
               | (Ok a, w') => k a w'
               | (Raise e, w') => (Raise e, w')
               end.
Proof. reflexivity. Qed.

Lemma lift_run {A} (c : result A) (w : world) : lift c w = (c, w).
Proof. reflexivity. Qed.

Lemma for_each_app {A} (body : A -> M unit) (l1 l2 : list A) (w : world) :
  for_each (l1 ++ l2) body w =
  match for_each l1 body w with
  | (Ok _, w') => for_each l2 body w'
  | (Raise e, w') => (Raise e, w')
  end.
Proof.
  revert w. induction l1 as [|x l1 IH]; intros w; simpl.
  - reflexivity.
  - rewrite !bind_run. destruct (body x w) as [[[]|e] w']; [apply IH | reflexivity].
Qed.

(** ** What the dispatch loop does to the state *)

Lemma add_tasks_nil w : add_tasks [] w = w.
Proof. destruct w; unfold add_tasks; simpl. by rewrite app_nil_r. Qed.

Lemma add_tasks_app cs1 cs2 w :
  add_tasks cs2 (add_tasks cs1 w) = add_tasks (cs1 ++ cs2) w.
Proof. unfold add_tasks; simpl. by rewrite app_assoc. Qed.

Lemma dispatch_run r a w :
  dispatch r a w = (outcome_of r a, add_tasks (calls_of r a) w).
Proof.
  unfold outcome_of, calls_of, dispatch.
  destruct (String.eqb (type a) "tts" && truthy (entity_id a)); [reflexivity|].
  destruct (String.eqb (type a) "notify" && truthy (service a)).
  - rewrite !bind_run, !lift_run.
    destruct (unpack2 _) as [p|e]; simpl; [reflexivity|].
    by rewrite add_tasks_nil.
  - simpl. by rewrite add_tasks_nil.
Qed.

(** An action that raises has queued nothing. *)
Lemma dispatch_raise_calls r a e : outcome_of r a = Raise e -> calls_of r a = [].
Proof.
  unfold outcome_of, calls_of, dispatch.
  destruct (String.eqb (type a) "tts" && truthy (entity_id a)); [discriminate|].
  destruct (String.eqb (type a) "notify" && truthy (service a)); [|discriminate].
  rewrite !bind_run, !lift_run. destruct (unpack2 _); [discriminate | reflexivity].
Qed.

Lemma for_each_dispatch_run r acts w :
  for_each acts (dispatch r) w =
  (loop_outcome r acts, add_tasks (loop_calls r acts) w).
Proof.
  revert w. induction acts as [|a acts IH]; intros w; simpl.
  - by rewrite add_tasks_nil.
  - rewrite bind_run, dispatch_run.
    destruct (outcome_of r a) as [[]|e] eqn:Ho.
    + by rewrite IH, add_tasks_app.
    + by rewrite (dispatch_raise_calls _ _ _ Ho).
Qed.

(** ** [_handle_trigger], step by step *)

Lemma schedule_run reminder when w :
  _schedule reminder when w = (Ok tt, rearmed reminder when w).
Proof. reflexivity. Qed.

Lemma add_run reminder r w :
  heap w !! reminder = Some r ->
  add reminder w =
  (Ok tt,
   {| heap := alter (set_cancel (armed w)) reminder (heap w);
      _reminders := <[id r := reminder]> (_reminders w);
      timers := timers w ++ [{| tm_handle := armed w; tm_when := start r;
                                tm_reminder := reminder |}];
      armed := S (armed w); tasks := tasks w; bus := bus w |}).
Proof.
  intros Hr. unfold add. rewrite bind_run. unfold deref at 1. by rewrite Hr.
Qed.

Lemma handle_trigger_run reminder r now w :
  heap w !! reminder = Some r ->
  _handle_trigger reminder now w =
  match loop_outcome r (actions r) with
  | Raise e => (Raise e, add_tasks (loop_calls r (actions r)) w)
  | Ok _ =>
      let w1 := add_event (triggered r)
                  (add_tasks (loop_calls r (actions r)) w) in
      match next_occurrence r now with
      | Ok (Some next_time) => (Ok tt, rearmed reminder next_time w1)
      | Ok None => (Ok tt, retired (id r) w1)
      | Raise e => (Raise e, w1)
      end
  end.
Proof.
  intros Hr. unfold _handle_trigger.
  rewrite bind_run. unfold deref at 1. rewrite Hr.
  rewrite bind_run, for_each_dispatch_run.
  destruct (loop_outcome r (actions r)) as [[]|e]; [|reflexivity].
  rewrite bind_run. cbn [async_fire]. rewrite bind_run, lift_run.
  destruct (next_occurrence r now) as [[t|]|e]; reflexivity.
Qed.

(** A trigger raises what its dispatch loop raises, or else what
    [next_occurrence] raises. *)
Lemma handle_trigger_outcome reminder r now w :
  heap w !! reminder = Some r ->
  (_handle_trigger reminder now w).1 =
  match loop_outcome r (actions r) with
  | Raise e => Raise e
  | Ok _ =>
      match next_occurrence r now with
      | Ok _ => Ok tt
      | Raise e => Raise e
      end
  end.
Proof.
  intros Hr. rewrite (handle_trigger_run _ _ _ _ Hr).
  destruct (loop_outcome r (actions r)) as [[]|e]; [|reflexivity].
  simpl. destruct (next_occurrence r now) as [[t|]|e]; reflexivity.
Qed.


(** ** Recurrence *)

Lemma first_after_skip (now : Z) before l :
  Forall (passed now) before ->
  first_after (before ++ l) (utcnow now) false = first_after l (utcnow now) false.
Proof.
  induction 1 as [|i before [Hi Hle] _ IH]; simpl; [done|].
  unfold dt_lt. simpl. rewrite Hi. simpl.
  by destruct (Z.ltb_spec now (stamp i)); [lia|].
Qed.

(** What the walk returns: the first occurrence that is not passed over,
    when it is naive; nothing when all are passed over; and the error of
    the comparison when the first occurrence not passed over is aware. *)
Lemma first_after_spec (now : Z) l :
  match first_after l (utcnow now) false with
  | Ok (Some t) =>
      aware t = false /\ now < stamp t /\
      exists before later,
        l = before ++ t :: later /\ Forall (passed now) before
  | Ok None => Forall (passed now) l
  | Raise e =>
      e = compare_error /\
      exists before i later,
        l = before ++ i :: later /\ aware i = true /\
        Forall (passed now) before
  end.
Proof.
  induction l as [|i l IH]; simpl; [constructor|].
  unfold dt_lt. simpl. destruct (aware i) eqn:Hi; simpl.
  - split; [done|]. exists [], i, l. by repeat split.
  - destruct (Z.ltb_spec now (stamp i)) as [Hlt|Hge].
    + split; [done|]. split; [done|]. exists [], l. by repeat split.
    + assert (Hp : passed now i) by done.
      destruct (first_after l (utcnow now) false) as [[t|]|e].
      * destruct IH as (Ht & Hlt & before & later & -> & Hb).
        split; [done|]. split; [done|]. exists (i :: before), later.
        split; [done|]. by constructor.
      * by constructor.
      * destruct IH as (-> & before & j & later & -> & Hj & Hb).
        split; [done|]. exists (i :: before), j, later.
        split; [done|]. split; [done|]. by constructor.
Qed.

(** A rule whose first occurrence is aware cannot be asked for its next
    occurrence: the first comparison with the naive clock reading
    raises. *)
Lemma next_occurrence_aware_raises r rr i l (now : Z) :
  _rrule r = Some rr ->
  occurrences rr = i :: l ->
  aware i = true ->
  next_occurrence r now = Raise compare_error.
Proof.
  intros Hrr Hocc Hi. unfold next_occurrence, after. rewrite Hrr, Hocc.
  simpl. unfold dt_lt. simpl. by rewrite Hi.
Qed.

(** With naive occurrences only, [next_occurrence] is the first
    occurrence later than [now], if there is one. *)
Lemma next_occurrence_naive r rr (now : Z) :
  _rrule r = Some rr ->
  Forall (fun i => aware i = false) (occurrences rr) ->
  next_occurrence r now =
  Ok (find (fun i => now <? stamp i) (occurrences rr)).
Proof.
  intros Hrr Hn. unfold next_occurrence, after. rewrite Hrr.
  induction Hn as [|i l Hi _ IH]; simpl; [done|].
  unfold dt_lt. simpl. rewrite Hi. simpl.
  by destruct (now <? stamp i).
Qed.

(** With naive occurrences only, [next_occurrence] returns: an occurrence
    later than [now], the first one the rule generates, or nothing when
    the rule has no occurrence later than [now]. *)
Lemma next_occurrence_naive_later r rr (now : Z) :
  _rrule r = Some rr ->
  Forall (fun i => aware i = false) (occurrences rr) ->
  exists o,
    next_occurrence r now = Ok o /\
    match o with
    | Some t =>
        now < stamp t /\
        exists before later,
          occurrences rr = before ++ t :: later /\ Forall (passed now) before
    | None => Forall (passed now) (occurrences rr)
    end.
Proof.
  intros Hrr Hn. unfold next_occurrence, after. rewrite Hrr.
  pose proof (first_after_spec now (occurrences rr)) as Hspec.
  destruct (first_after (occurrences rr) (utcnow now) false) as [[t|]|e].
  - exists (Some t). split; [done|]. tauto.
  - by exists None.
  - destruct Hspec as (_ & before & i & later & Hocc & Hi & _).
    rewrite Hocc in Hn. apply Forall_app in Hn as [_ Hn].
    apply Forall_cons in Hn as [Hn _]. congruence.
Qed.

(** C1.  The claim fails for a start that carries a time zone.  The
    request of the specification's scenario, a start given with its zone
    and a daily rule of two occurrences, builds a reminder whose rule
    yields aware occurrences; [next_occurrence] compares them with the
    naive reading of [datetime.utcnow()], and that comparison raises
    [TypeError] at every clock reading: the method returns neither a
    later timestamp nor nothing. *)
Theorem aware_start_next_occurrence_raises (now : Z) :
  Reminder_init sample_parse sample_rrulestr "Take pills"
    (StartText "12:00Z") (Some "FREQ=DAILY;COUNT=2") [] "r5"
    = Ok aware_reminder /\
  next_occurrence aware_reminder now = Raise compare_error /\
  (forall o, next_occurrence aware_reminder now ≠ Ok o).
Proof.
  assert (Hn : next_occurrence aware_reminder now = Raise compare_error).
  { by eapply next_occurrence_aware_raises. }
  split; [reflexivity|]. split; [exact Hn|].
  intros o. by rewrite Hn.
Qed.

(** ** Actions *)

Lemma dispatch_message r r' a w :
  message r = message r' -> dispatch r a w = dispatch r' a w.
Proof. intros Hm. unfold dispatch. by rewrite Hm. Qed.

Lemma loop_message r r' acts :
  message r = message r' ->
  loop_outcome r acts = loop_outcome r' acts /\
  loop_calls r acts = loop_calls r' acts.
Proof.
  intros Hm. induction acts as [|a acts [IHo IHc]]; simpl; [done|].
  unfold outcome_of, calls_of.
  rewrite (dispatch_message r r' a nothing Hm), IHo, IHc. done.
Qed.

Lemma malformed_outcome r a :
  malformed a = true -> outcome_of r a = Ok tt /\ calls_of r a = [].
Proof.
  unfold malformed, outcome_of, calls_of, dispatch.
  destruct (String.eqb_spec (type a) "tts") as [->|_]; simpl.
  - by intros ->%negb_true_iff.
  - destruct (String.eqb (type a) "notify"); simpl; [|done].
    by intros ->%negb_true_iff.
Qed.

Lemma loop_skip r a before later :
  outcome_of r a = Ok tt -> calls_of r a = [] ->
  loop_outcome r (before ++ a :: later) = loop_outcome r (before ++ later) /\
  loop_calls r (before ++ a :: later) = loop_calls r (before ++ later).
Proof.
  intros Ho Hc. induction before as [|b before [IHo IHc]]; simpl.
  - by rewrite Ho, Hc.
  - destruct (outcome_of r b); [by rewrite IHo, IHc | done].
Qed.

Lemma loop_all_malformed r acts :
  Forall (fun a => malformed a = true) acts ->
  loop_outcome r acts = Ok tt /\ loop_calls r acts = [].
Proof.
  induction 1 as [|a acts Ha _ [IHo IHc]]; simpl; [done|].
  destruct (malformed_outcome r a Ha) as [-> ->]. by rewrite IHo, IHc.
Qed.

(** C2.  An action whose type is not recognised, or whose target is
    missing, is passed over by [_handle_trigger]: dispatching it raises
    nothing and changes nothing; a trigger of a reminder that holds it runs
    exactly as the trigger of the same reminder without it (same outcome,
    same calls queued for the other actions, same event, same rescheduling
    step); and when every action of the reminder is of that sort the
    trigger queues no call, emits the event and takes the rescheduling
    step, where it reschedules or retires the reminder unless
    [next_occurrence] itself raises. *)
Theorem malformed_action_skipped w reminder r now before a later :
  heap w !! reminder = Some r ->
  actions r = before ++ a :: later ->
  malformed a = true ->
  (forall w0, dispatch r a w0 = (Ok tt, w0)) /\
  observe (_handle_trigger reminder now w) =
    observe (_handle_trigger reminder now
               (with_object reminder (with_actions (before ++ later) r) w)) /\
  (Forall (fun a' => malformed a' = true) (before ++ later) ->
   _handle_trigger reminder now w =
     match next_occurrence r now with
     | Ok (Some next_time) =>
         (Ok tt, rearmed reminder next_time (add_event (triggered r) w))
     | Ok None => (Ok tt, retired (id r) (add_event (triggered r) w))
     | Raise e => (Raise e, add_event (triggered r) w)
     end).
Proof.
  intros Hr Hacts Ha.
  destruct (malformed_outcome r a Ha) as [Ho Hc].
  destruct (loop_skip r a before later Ho Hc) as [Hso Hsc].
  split; [|split].
  - intros w0. by rewrite dispatch_run, Ho, Hc, add_tasks_nil.
  - set (r' := with_actions (before ++ later) r).
    assert (Hr' : heap (with_object reminder r' w) !! reminder = Some r')
      by apply lookup_insert_eq.
    rewrite (handle_trigger_run _ _ _ _ Hr), (handle_trigger_run _ _ _ _ Hr').
    destruct (loop_message r' r (before ++ later) eq_refl) as [Hmo Hmc].
    rewrite Hacts, Hso, Hsc. cbn [actions r' with_actions].
    rewrite Hmo, Hmc.
    destruct (loop_outcome r (before ++ later)) as [[]|e]; [|reflexivity].
    change (next_occurrence r' now) with (next_occurrence r now).
    destruct (next_occurrence r now) as [[t|]|e]; reflexivity.
  - intros Hall. rewrite (handle_trigger_run _ _ _ _ Hr), Hacts, Hso, Hsc.
    destruct (loop_all_malformed r _ Hall) as [-> ->].
    rewrite add_tasks_nil.
    destruct (next_occurrence r now) as [[t|]|e]; reflexivity.
Qed.



(** ** The notify payload *)

Lemma dict_update_union d other : dict_update d other = other ∪ d.
Proof.
  unfold dict_update.
  apply (map_fold_weak_ind (fun acc m => acc = m ∪ d)).
  - by rewrite (left_id_L ∅ (∪)).
  - intros k v m acc _ ->. by rewrite insert_union_l.
Qed.

(** C6.  For a notify action (type [notify], a non-empty [service] of the
    form [domain.name]) the call queued goes to that domain and name, and
    its payload is the action's [data] on top of the default
    [{message: reminder.message}]: under the key [message] it holds the
    action's own entry when [data] has one and the reminder's message
    otherwise, and under every other key what [data] holds. *)
Theorem notify_payload_merges_data r a domain name w :
  type a = "notify" ->
  truthy (service a) = true ->
  cut_at_dot (str_of (service a)) = Some (domain, name) ->
  exists payload,
    dispatch r a w =
      (Ok tt, add_tasks [{| sc_domain := domain; sc_service := name;
                            sc_data := payload |}] w) /\
    payload = data a ∪ {["message" := PStr (message r)]} /\
    payload !! "message" =
      Some (default (PStr (message r)) (data a !! "message")) /\
    (forall k, k ≠ "message" -> payload !! k = data a !! k).
Proof.
  intros Hty Hsv Hcut.
  exists (data a ∪ {["message" := PStr (message r)]}).
  split; [|split; [reflexivity|split]].
  - unfold dispatch. rewrite Hty, Hsv. simpl.
    rewrite bind_run, lift_run. unfold split_dot_1. rewrite Hcut. simpl.
    by rewrite dict_update_union, insert_empty.
  - rewrite lookup_union. destruct (data a !! "message"); simpl; [done|].
    by rewrite lookup_singleton_eq.
  - intros k Hk. apply lookup_union_l. by apply lookup_singleton_ne.
Qed.

(** ** Triggers that run to their end

    When the dispatch loop raises nothing, the trigger emits the event once
    and takes its rescheduling step, which reschedules, retires, or raises
    what [next_occurrence] raises. *)

Lemma trigger_completes reminder r now w :
  heap w !! reminder = Some r ->
  loop_outcome r (actions r) = Ok tt ->
  exists w',
    (_handle_trigger reminder now w).2 = w' /\
    bus w' = bus w ++ [triggered r] /\
    match next_occurrence r now with
    | Ok (Some next_time) =>
        (_handle_trigger reminder now w).1 = Ok tt /\
        _reminders w' = _reminders w /\
        timers w' = timers w ++ [{| tm_handle := armed w; tm_when := next_time;
                                    tm_reminder := reminder |}]
    | Ok None =>
        (_handle_trigger reminder now w).1 = Ok tt /\
        _reminders w' = delete (id r) (_reminders w) /\ timers w' = timers w
    | Raise e =>
        (_handle_trigger reminder now w).1 = Raise e /\
        _reminders w' = _reminders w /\ timers w' = timers w
    end.
Proof.
  intros Hr Hok. rewrite (handle_trigger_run _ _ _ _ Hr), Hok. simpl.
  destruct (next_occurrence r now) as [[t|]|e]; eexists; repeat split.
Qed.

Lemma one_shot_retired reminder r now w :
  heap w !! reminder = Some r ->
  _rrule r = None ->
  loop_outcome r (actions r) = Ok tt ->
  exists w',
    _handle_trigger reminder now w = (Ok tt, w') /\
    _reminders w' = delete (id r) (_reminders w) /\
    _reminders w' !! id r = None /\
    timers w' = timers w.
Proof.
  intros Hr Hrr Hok. rewrite (handle_trigger_run _ _ _ _ Hr), Hok.
  unfold next_occurrence. rewrite Hrr. simpl.
  eexists. split; [reflexivity|]. cbn [_reminders timers].
  split; [done|]. split; [apply lookup_delete_eq | done].
Qed.

(** ** A notify action without a dot in its service

    [service.split(".", 1)] yields one string, the unpacking into domain
    and name raises, and the exception leaves [_handle_trigger] at once. *)

(** C7.  A trigger of a reminder that holds a notify action whose service
    has no dot raises [ValueError] inside the dispatch loop: no event is
    put on the bus, at any clock reading. *)
Theorem dotless_trigger_emits_no_event (now : Z) :
  loop_outcome dotless_reminder (actions dotless_reminder)
    = Raise (ValueError "not enough values to unpack") /\
  fire 0%nat now dotless_world =
    (Raise (ValueError "not enough values to unpack"),
     {| heap := heap dotless_world; _reminders := _reminders dotless_world;
        timers := []; armed := 1; tasks := []; bus := [] |}) /\
  bus (fire 0%nat now dotless_world).2 = [].
Proof.
  assert (Hf : fire 0%nat now dotless_world =
    (Raise (ValueError "not enough values to unpack"),
     {| heap := heap dotless_world; _reminders := _reminders dotless_world;
        timers := []; armed := 1; tasks := []; bus := [] |})).
  { unfold fire. cbn [find timers dotless_world tm_handle Nat.eqb tm_reminder].
    erewrite handle_trigger_run by (cbn [heap]; apply lookup_singleton_eq).
    reflexivity. }
  split; [reflexivity|]. split; [exact Hf|]. by rewrite Hf.
Qed.

(** C3.  A one-off reminder has no next occurrence at any clock reading;
    but when it holds a notify action whose service has no dot, its single
    trigger raises before the rescheduling step, and the reminder's id is
    still in the registry afterwards, with no timer left to fire it. *)
Theorem dotless_one_shot_not_retired (now : Z) :
  next_occurrence dotless_reminder now = Ok None /\
  (fire 0%nat now dotless_world).1
    = Raise (ValueError "not enough values to unpack") /\
  _reminders (fire 0%nat now dotless_world).2 !! "r1" = Some 0%nat /\
  timers (fire 0%nat now dotless_world).2 = [].
Proof.
  assert (Hf : fire 0%nat now dotless_world =
    (Raise (ValueError "not enough values to unpack"),
     {| heap := heap dotless_world; _reminders := _reminders dotless_world;
        timers := []; armed := 1; tasks := []; bus := [] |})).
  { unfold fire. cbn [find timers dotless_world tm_handle Nat.eqb tm_reminder].
    erewrite handle_trigger_run by (cbn [heap]; apply lookup_singleton_eq).
    reflexivity. }
  split; [reflexivity|]. rewrite Hf. cbn [fst snd _reminders timers dotless_world].
  split; [reflexivity|]. split; [apply lookup_singleton_eq | reflexivity].
Qed.

(** ** The registry across triggers *)

Lemma size_delete_present (m : gmap string loc) k l :
  m !! k = Some l -> S (size (delete k m)) = size m.
Proof.
  intros Hk. rewrite <- (insert_delete_id m k l Hk) at 2.
  rewrite map_size_insert_None; [reflexivity | apply lookup_delete_eq].
Qed.

(** One trigger of a registered recurring reminder at clock reading
    [now].  While the rule still yields an occurrence after [now], the
    registry is unchanged, and a trigger that completes has armed one timer
    for that occurrence.  The size of the registry changes only on a
    trigger at which the rule yields nothing, and then it drops by one; a
    trigger that completes with nothing yielded removes the reminder's
    id. *)
Lemma recurring_registry_step w reminder r rr now :
  heap w !! reminder = Some r ->
  _rrule r = Some rr ->
  _reminders w !! id r = Some reminder ->
  (forall t, after rr (utcnow now) false = Ok (Some t) ->
     _reminders (_handle_trigger reminder now w).2 = _reminders w /\
     _reminders (_handle_trigger reminder now w).2 !! id r = Some reminder /\
     ((_handle_trigger reminder now w).1 = Ok tt ->
      timers (_handle_trigger reminder now w).2 =
        timers w ++ [{| tm_handle := armed w; tm_when := t;
                        tm_reminder := reminder |}])) /\
  (size (_reminders (_handle_trigger reminder now w).2) ≠ size (_reminders w) ->
     after rr (utcnow now) false = Ok None /\
     S (size (_reminders (_handle_trigger reminder now w).2))
       = size (_reminders w)) /\
  (after rr (utcnow now) false = Ok None ->
   (_handle_trigger reminder now w).1 = Ok tt ->
     _reminders (_handle_trigger reminder now w).2
       = delete (id r) (_reminders w) /\
     _reminders (_handle_trigger reminder now w).2 !! id r = None /\
     S (size (_reminders (_handle_trigger reminder now w).2))
       = size (_reminders w)).
Proof.
  intros Hr Hrr Hreg.
  rewrite (handle_trigger_run _ _ _ _ Hr).
  unfold next_occurrence. rewrite Hrr.
  destruct (loop_outcome r (actions r)) as [[]|e];
    destruct (after rr (utcnow now) false) as [[t|]|e']; simpl;
    (split; [|split]); try done.
  - intros t' [= <-]. done.
  - intros _. split; [reflexivity|]. by eapply size_delete_present.
  - intros _ _. split; [reflexivity|]. split; [apply lookup_delete_eq|].
    by eapply size_delete_present.
Qed.

(** A trigger whose dispatch loop raises leaves the registry as it was,
    whatever the rule would yield. *)
Lemma raising_loop_keeps_registry w reminder r now e :
  heap w !! reminder = Some r ->
  loop_outcome r (actions r) = Raise e ->
  (_handle_trigger reminder now w).1 = Raise e /\
  _reminders (_handle_trigger reminder now w).2 = _reminders w /\
  timers (_handle_trigger reminder now w).2 = timers w.
Proof.
  intros Hr He. by rewrite (handle_trigger_run _ _ _ _ Hr), He.
Qed.

(** C4.  The claim fails for a recurring reminder that holds a notify
    action whose service has no dot.  The request is accepted and the
    reminder registered and armed; when its timer is delivered at a clock
    reading at which the rule yields nothing more, the trigger raises in
    the dispatch loop, before the rescheduling step: the id is still
    registered afterwards, the size of the registry has not dropped, and no
    timer is left that could trigger the reminder again. *)
Theorem exhausted_recurring_stays_registered :
  handle_add sample_parse sample_rrulestr stuck_call "r4" nothing
    = (Ok tt, stuck_world) /\
  next_occurrence stuck_reminder 36 = Ok None /\
  (fire 0%nat 36 stuck_world).1
    = Raise (ValueError "not enough values to unpack") /\
  _reminders (fire 0%nat 36 stuck_world).2 !! "r4" = Some 0%nat /\
  size (_reminders (fire 0%nat 36 stuck_world).2)
    = size (_reminders stuck_world) /\
  timers (fire 0%nat 36 stuck_world).2 = [].
Proof.
  assert (Hf : fire 0%nat 36 stuck_world =
    (Raise (ValueError "not enough values to unpack"),
     {| heap := heap stuck_world; _reminders := _reminders stuck_world;
        timers := []; armed := 1; tasks := []; bus := [] |})).
  { unfold fire. cbn [find timers stuck_world tm_handle Nat.eqb tm_reminder].
    erewrite handle_trigger_run by (cbn [heap]; apply lookup_singleton_eq).
    reflexivity. }
  split; [vm_compute; reflexivity|]. split; [reflexivity|].
  rewrite Hf. cbn [fst snd _reminders timers stuck_world].
  split; [reflexivity|]. split; [apply lookup_singleton_eq|]. done.
Qed.

(** ** The [add_reminder] service *)

Lemma handle_add_run dateparser_parse rrulestr call uuid w :
  handle_add dateparser_parse rrulestr call uuid w =
  match comprehension ReminderAction_init (default [] (d_actions call)) with
  | Raise e => (Raise e, w)
  | Ok acts =>
      match getitem "message" (d_message call) with
      | Raise e => (Raise e, w)
      | Ok msg =>
          match getitem "start" (d_start call) with
          | Raise e => (Raise e, w)
          | Ok st =>
              match Reminder_init dateparser_parse rrulestr msg st
                      (d_rrule call) acts uuid with
              | Raise e => (Raise e, w)
              | Ok r => (alloc r ≫= add) w
              end
          end
      end
  end.
Proof.
  unfold handle_add. rewrite bind_run, lift_run.
  destruct (comprehension _ _) as [acts|e]; [|reflexivity].
  rewrite bind_run, lift_run.
  destruct (getitem "message" _) as [msg|e]; [|reflexivity].
  rewrite bind_run, lift_run.
  destruct (getitem "start" _) as [st|e]; [|reflexivity].
  rewrite bind_run, lift_run.
  destruct (Reminder_init _ _ _ _ _ _ _) as [r|e]; reflexivity.
Qed.

Lemma Reminder_init_unparsed dateparser_parse rrulestr msg s rule acts i :
  dateparser_parse s = None ->
  Reminder_init dateparser_parse rrulestr msg (StartText s) rule acts i =
  Raise (ValueError ("Could not parse start datetime: " ++ s)%string).
Proof.
  intros Hp. unfold Reminder_init, __post_init__, mbind, result_bind, rbind.
  by rewrite Hp.
Qed.

(** C8.  When the text given as [start] is not resolved by the date
    parser, constructing the reminder raises the [ValueError] that reports
    the unparsed start; an add request with such a start is rejected, it
    ends in an exception and leaves the whole state as it was: no reminder
    in the registry, no timer armed; and when the request's actions and
    message are in order that exception is the one the construction
    raised. *)
Theorem unparsed_start_rejected dateparser_parse rrulestr call uuid w s :
  d_start call = Some (StartText s) ->
  dateparser_parse s = None ->
  (forall msg rule acts i,
     Reminder_init dateparser_parse rrulestr msg (StartText s) rule acts i =
     Raise (ValueError ("Could not parse start datetime: " ++ s)%string)) /\
  (exists e, handle_add dateparser_parse rrulestr call uuid w = (Raise e, w)) /\
  (forall acts msg,
     comprehension ReminderAction_init (default [] (d_actions call)) = Ok acts ->
     d_message call = Some msg ->
     handle_add dateparser_parse rrulestr call uuid w =
     (Raise (ValueError ("Could not parse start datetime: " ++ s)%string), w)).
Proof.
  intros Hst Hp. split; [|split].
  - intros. by apply Reminder_init_unparsed.
  - rewrite handle_add_run, Hst. simpl.
    destruct (comprehension _ _) as [acts|e]; [|by eexists].
    destruct (getitem "message" _) as [msg|e]; [|by eexists].
    rewrite (Reminder_init_unparsed _ _ _ _ _ _ _ Hp). by eexists.
  - intros acts msg Hacts Hmsg.
    rewrite handle_add_run, Hacts, Hmsg, Hst. simpl.
    by rewrite (Reminder_init_unparsed _ _ _ _ _ _ _ Hp).
Qed.

Lemma Reminder_init_fields dateparser_parse rrulestr msg st rule acts i r :
  Reminder_init dateparser_parse rrulestr msg st rule acts i = Ok r ->
  message r = msg /\ id r = i /\ actions r = acts /\ _cancel r = None.
Proof.
  unfold Reminder_init, mbind, result_bind, rbind.
  destruct (__post_init__ _ _ _ _) as [p|e]; [|discriminate].
  by intros [= <-].
Qed.

Lemma alloc_add_run r w :
  (alloc r ≫= add) w =
  (Ok tt,
   {| heap := alter (set_cancel (armed w)) (fresh (dom (heap w)))
                (<[fresh (dom (heap w)) := r]> (heap w));
      _reminders := <[id r := fresh (dom (heap w))]> (_reminders w);
      timers := timers w ++ [{| tm_handle := armed w; tm_when := start r;
                                tm_reminder := fresh (dom (heap w)) |}];
      armed := S (armed w); tasks := tasks w; bus := bus w |}).
Proof.
  rewrite bind_run. unfold alloc at 1.
  by rewrite (add_run _ r) by apply lookup_insert_eq.
Qed.

(** C9, as the code has it.  The message of an add request is checked for
    presence only.  A request without a [message] is rejected: it ends in
    an exception and leaves the state as it was.  A request whose message
    is the empty string is treated like any other: when its actions, start
    and rule are in order it returns normally, with the reminder, empty
    message and all, registered under its fresh id and armed for its
    start. *)
Theorem message_checked_for_presence_only
    dateparser_parse rrulestr call uuid w :
  (d_message call = None ->
   exists e, handle_add dateparser_parse rrulestr call uuid w = (Raise e, w)) /\
  (forall acts st r,
     d_message call = Some "" ->
     comprehension ReminderAction_init (default [] (d_actions call)) = Ok acts ->
     d_start call = Some st ->
     Reminder_init dateparser_parse rrulestr "" st (d_rrule call) acts uuid
       = Ok r ->
     exists w',
       handle_add dateparser_parse rrulestr call uuid w = (Ok tt, w') /\
       _reminders w' !! uuid = Some (fresh (dom (heap w))) /\
       message <$> heap w' !! fresh (dom (heap w)) = Some "" /\
       timers w' = timers w ++ [{| tm_handle := armed w; tm_when := start r;
                                   tm_reminder := fresh (dom (heap w)) |}]).
Proof.
  split.
  - intros Hm. rewrite handle_add_run, Hm. simpl.
    destruct (comprehension _ _) as [acts|e]; by eexists.
  - intros acts st r Hm Hacts Hst Hr.
    destruct (Reminder_init_fields _ _ _ _ _ _ _ _ Hr) as (Hmsg & Hid & _).
    rewrite handle_add_run, Hacts, Hm, Hst. simpl. rewrite Hr, alloc_add_run.
    eexists. split; [reflexivity|]. cbn [_reminders heap timers].
    split; [by rewrite Hid, lookup_insert_eq|]. split; [|reflexivity].
    by rewrite lookup_alter_eq, lookup_insert_eq; simpl; rewrite Hmsg.
Qed.

(** C9, as claimed, fails: a request whose message is the empty string is
    accepted.  The reminder is built, registered under its fresh id with
    the empty message, and armed; so it is not the case that every request
    with a missing or empty message ends in an exception. *)
Lemma empty_message_accepted :
  d_message empty_message_call = Some "" /\
  (handle_add sample_parse sample_rrulestr empty_message_call "u1" nothing).1
    = Ok tt /\
  _reminders
    (handle_add sample_parse sample_rrulestr empty_message_call "u1" nothing).2
    !! "u1" = Some 0%nat /\
  message <$>
    heap (handle_add sample_parse sample_rrulestr empty_message_call "u1"
            nothing).2 !! 0%nat = Some "" /\
  timers
    (handle_add sample_parse sample_rrulestr empty_message_call "u1" nothing).2
    = [{| tm_handle := 0%nat; tm_when := naive 12; tm_reminder := 0%nat |}] /\
  ~ (forall dateparser_parse rrulestr call uuid w,
       d_message call = None \/ d_message call = Some "" ->
       exists e w',
         handle_add dateparser_parse rrulestr call uuid w = (Raise e, w')).
Proof.
  repeat split; try (vm_compute; reflexivity).
  intros H.
  destruct (H sample_parse sample_rrulestr empty_message_call "u1" nothing)
    as (e & w' & He); [by right|].
  apply (f_equal fst) in He. vm_compute in He. discriminate.
Qed.

(** ** Adding under an id that is taken *)

Lemma find_app_Some {A} (f : A -> bool) (l1 l2 : list A) x :
  find f l1 = Some x -> find f (l1 ++ l2) = Some x.
Proof.
  induction l1 as [|y l1 IH]; simpl; [discriminate|].
  destruct (f y); [done | exact IH].
Qed.

(** C10.  [add] cancels nothing: every timer armed before is armed after,
    and one more is armed for the new reminder.  When the id of the added
    reminder is already registered for another reminder object, the entry
    is overwritten with the new object and the call returns normally; the
    old object is untouched, its timer is still armed, and when the host
    delivers that timer, [_handle_trigger] runs on the old object. *)
Theorem add_overwrites_and_orphans w new rn old ro h t now :
  heap w !! new = Some rn ->
  heap w !! old = Some ro ->
  old ≠ new ->
  _reminders w !! id rn = Some old ->
  find (fun t => Nat.eqb (tm_handle t) h) (timers w) = Some t ->
  tm_reminder t = old ->
  exists w',
    add new w = (Ok tt, w') /\
    _reminders w' = <[id rn := new]> (_reminders w) /\
    _reminders w' !! id rn = Some new /\
    timers w' = timers w ++ [{| tm_handle := armed w; tm_when := start rn;
                                tm_reminder := new |}] /\
    heap w' !! old = Some ro /\
    find (fun t => Nat.eqb (tm_handle t) h) (timers w') = Some t /\
    fire h now w' = _handle_trigger old now (spent h w').
Proof.
  intros Hnew Hold Hne Hreg Hfind Ht.
  eexists. split; [by apply add_run|]. cbn [_reminders timers heap].
  split; [reflexivity|]. split; [apply lookup_insert_eq|].
  split; [reflexivity|].
  split; [by rewrite lookup_alter_ne|].
  split; [by apply find_app_Some|].
  unfold fire. cbn [timers]. rewrite (find_app_Some _ _ _ _ Hfind), Ht.
  reflexivity.
Qed.

(** ** The properties at the sample inputs *)

Lemma malformed_action_skipped_witness :
  (forall w0,
     dispatch (busy_reminder [say_action; untargeted_action; titled_action])
       untargeted_action w0 = (Ok tt, w0)) /\
  observe (_handle_trigger 0%nat 12
             (busy_world [say_action; untargeted_action; titled_action])) =
  observe (_handle_trigger 0%nat 12
             (with_object 0%nat
                (with_actions ([say_action] ++ [titled_action])
                   (busy_reminder
                      [say_action; untargeted_action; titled_action]))
                (busy_world [say_action; untargeted_action; titled_action]))).
Proof.
  destruct (malformed_action_skipped
              (busy_world [say_action; untargeted_action; titled_action])
              0%nat
              (busy_reminder [say_action; untargeted_action; titled_action])
              12 [say_action] untargeted_action [titled_action])
    as (Hskip & Hsame & _); [reflexivity | reflexivity | reflexivity |].
  split; [exact Hskip | exact Hsame].
Defined.


Lemma notify_payload_merges_data_witness :
  exists payload,
    dispatch (busy_reminder []) override_action nothing =
      (Ok tt, add_tasks [{| sc_domain := "notify"; sc_service := "phone";
                            sc_data := payload |}] nothing) /\
    payload = data override_action ∪ {["message" := PStr "Take pills"]} /\
    payload !! "message" =
      Some (default (PStr "Take pills") (data override_action !! "message")) /\
    (forall k, k ≠ "message" -> payload !! k = data override_action !! k).
Proof.
  apply (notify_payload_merges_data (busy_reminder []) override_action
           "notify" "phone" nothing); reflexivity.
Defined.

Lemma unparsed_start_rejected_witness :
  (forall msg rule acts i,
     Reminder_init sample_parse sample_rrulestr msg (StartText "") rule acts i =
     Raise (ValueError ("Could not parse start datetime: " ++ "")%string)) /\
  (exists e,
     handle_add sample_parse sample_rrulestr unparsed_call "u1" nothing
     = (Raise e, nothing)) /\
  (forall acts msg,
     comprehension ReminderAction_init (default [] (d_actions unparsed_call))
       = Ok acts ->
     d_message unparsed_call = Some msg ->
     handle_add sample_parse sample_rrulestr unparsed_call "u1" nothing =
     (Raise (ValueError ("Could not parse start datetime: " ++ "")%string),
      nothing)).
Proof.
  apply (unparsed_start_rejected sample_parse sample_rrulestr unparsed_call
           "u1" nothing ""); reflexivity.
Defined.

Lemma message_checked_for_presence_only_witness :
  (exists e,
     handle_add sample_parse sample_rrulestr no_message_call "u1" nothing
     = (Raise e, nothing)) /\
  (exists w',
     handle_add sample_parse sample_rrulestr empty_message_call "u1" nothing
       = (Ok tt, w') /\
     _reminders w' !! "u1" = Some (fresh (dom (heap nothing))) /\
     message <$> heap w' !! fresh (dom (heap nothing)) = Some "").
Proof.
  split.
  - apply (proj1 (message_checked_for_presence_only sample_parse
                    sample_rrulestr no_message_call "u1" nothing)).
    reflexivity.
  - destruct (proj2 (message_checked_for_presence_only sample_parse
                       sample_rrulestr empty_message_call "u1" nothing)
                [] (StartTime (naive 12))
                {| message := ""; start := naive 12; rrule := None;
                   actions := [];
                   id := "u1"; _cancel := None; _rrule := None |}
                eq_refl eq_refl eq_refl eq_refl)
      as (w' & Hrun & Hreg & Hmsg & _).
    exists w'. repeat split; assumption.
Defined.

Lemma add_overwrites_and_orphans_witness :
  exists w',
    add 1%nat twin_world = (Ok tt, w') /\
    _reminders w' = <["r2" := 1%nat]> (_reminders twin_world) /\
    _reminders w' !! "r2" = Some 1%nat /\
    timers w' = timers twin_world ++
                [{| tm_handle := 1%nat; tm_when := naive 20;
                    tm_reminder := 1%nat |}] /\
    heap w' !! 0%nat = Some daily_reminder /\
    find (fun t => Nat.eqb (tm_handle t) 0) (timers w') =
      Some {| tm_handle := 0%nat; tm_when := naive 12;
              tm_reminder := 0%nat |} /\
    fire 0%nat 12 w' = _handle_trigger 0%nat 12 (spent 0%nat w').
Proof.
  apply (add_overwrites_and_orphans twin_world 1%nat twin_reminder 0%nat
           daily_reminder 0%nat
           {| tm_handle := 0%nat; tm_when := naive 12; tm_reminder := 0%nat |}
           12);
    try reflexivity.
  discriminate.
Defined.

(** The daily reminder of the specification, end to end: added from a
    request, it is armed for its start; its first trigger re-arms it for
    the next day and keeps it registered; its second trigger retires it. *)
Example scenario_daily_count_2 :
  let call := {| d_message := Some "Take pills";
                 d_start := Some (StartText "noon");
                 d_rrule := Some "FREQ=DAILY;COUNT=2";
                 d_actions := None |} in
  let w1 := (handle_add sample_parse sample_rrulestr call "r2" nothing).2 in
  let w2 := (fire 0%nat 12 w1).2 in
  let w3 := (fire 1%nat 36 w2).2 in
  timers w1 = [{| tm_handle := 0%nat; tm_when := naive 12;
                  tm_reminder := 0%nat |}] /\
  _reminders w2 !! "r2" = Some 0%nat /\
  timers w2 = [{| tm_handle := 1%nat; tm_when := naive 36;
                  tm_reminder := 0%nat |}] /\
  _reminders w3 !! "r2" = None /\
  timers w3 = [] /\
  length (bus w3) = 2%nat.
Proof. vm_compute. repeat split. Qed.

(** * Further properties *)

(** ** Splitting a service name *)

Lemma cut_at_dot_None s : cut_at_dot s = None <-> has_dot s = false.
Proof.
  induction s as [|c s IH]; simpl; [done|].
  destruct (Ascii.eqb c "."); simpl; [done|].
  destruct (cut_at_dot s) as [[a b]|].
  - split; [done|]. intros H. by apply IH in H.
  - split; [|done]. intros _. by apply IH.
Qed.

Lemma cut_at_dot_Some s a b :
  cut_at_dot s = Some (a, b) <->
  s = (a ++ String "." b)%string /\ has_dot a = false.
Proof.
  revert a b. induction s as [|c s IH]; intros a b; simpl.
  - split; [done|]. intros [H _]. by destruct a.
  - destruct (Ascii.eqb_spec c ".") as [->|Hc].
    + split.
      * by intros [= <- <-].
      * intros [H Ha]. destruct a as [|c' a]; simpl in *.
        -- by injection H as ->.
        -- injection H as <- _. simpl in Ha. done.
    + destruct (cut_at_dot s) as [[a' b']|] eqn:Hcut.
      * split.
        -- intros [= <- <-]. destruct (proj1 (IH a' b') eq_refl) as [-> Ha'].
           split; [done|]. simpl. rewrite Ha'.
           by destruct (Ascii.eqb_spec c ".").
        -- intros [H Ha]. destruct a as [|c' a]; simpl in *.
           ++ injection H as -> _. done.
           ++ injection H as <- ->. apply orb_false_iff in Ha as [_ Ha].
              assert (Some (a', b') = Some (a, b)) as [= -> ->]; [|done].
              by apply IH.
      * split; [done|]. intros [H Ha]. destruct a as [|c' a]; simpl in *.
        -- injection H as -> _. done.
        -- injection H as <- ->. apply orb_false_iff in Ha as [_ Ha].
           assert (None = Some (a, b)); [|done]. by apply IH.
Qed.

(** ** When a trigger raises *)

Lemma outcome_of_unsplittable r a :
  outcome_of r a =
  if unsplittable a then Raise (ValueError "not enough values to unpack")
  else Ok tt.
Proof.
  unfold outcome_of, unsplittable, dispatch.
  destruct (String.eqb_spec (type a) "tts") as [Hty|_].
  - rewrite Hty. simpl. by destruct (truthy (entity_id a)).
  - simpl. destruct (String.eqb (type a) "notify"); simpl; [|done].
    destruct (truthy (service a)); simpl; [|done].
    rewrite bind_run, lift_run. unfold split_dot_1.
    destruct (cut_at_dot (str_of (service a))) as [[d n]|] eqn:Hcut.
    + destruct (has_dot (str_of (service a))) eqn:Hd; [done|].
      apply cut_at_dot_None in Hd. congruence.
    + apply cut_at_dot_None in Hcut. by rewrite Hcut.
Qed.

Lemma loop_outcome_unsplittable r acts :
  (loop_outcome r acts = Ok tt <->
   Forall (fun a => unsplittable a = false) acts) /\
  (forall e, loop_outcome r acts = Raise e ->
             e = ValueError "not enough values to unpack" /\
             Exists (fun a => unsplittable a = true) acts).
Proof.
  induction acts as [|a acts [IHok IHe]]; simpl.
  - split; [done|]. discriminate.
  - rewrite outcome_of_unsplittable.
    destruct (unsplittable a) eqn:Hu.
    + split.
      * split; [done|]. intros H. apply Forall_cons in H as [H _]. congruence.
      * intros e [= <-]. split; [done|]. by left.
    + split.
      * rewrite IHok, Forall_cons. split; [by split | by intros [_ H]].
      * intros e He. destruct (IHe e He) as [-> Hex]. split; [done|].
        by right.
Qed.

(** What [next_occurrence] raises, and when: the error of comparing a
    naive and an aware datetime, when the first occurrence of the rule
    that is not passed over is aware. *)
Lemma next_occurrence_raise r (now : Z) e :
  next_occurrence r now = Raise e ->
  e = compare_error /\
  exists rr before i later,
    _rrule r = Some rr /\ occurrences rr = before ++ i :: later /\
    aware i = true /\ Forall (passed now) before.
Proof.
  unfold next_occurrence, after.
  destruct (_rrule r) as [rr|]; [|discriminate].
  pose proof (first_after_spec now (occurrences rr)) as Hspec.
  intros He. rewrite He in Hspec.
  destruct Hspec as (-> & before & i & later & Hocc & Hi & Hb).
  split; [done|]. by exists rr, before, i, later.
Qed.

(** X1.  When a trigger raises, and what.  A trigger returns normally
    exactly when none of the reminder's actions is a notify action with a
    non-empty service that holds no dot and [next_occurrence] returns.
    What it raises is the [ValueError] of the unpacking, when there is
    such an action, and otherwise the [TypeError] that [next_occurrence]
    raises when the first occurrence of the rule that is not passed over
    at [now] is aware. *)
Theorem trigger_raises_exactly w reminder r now :
  heap w !! reminder = Some r ->
  ((_handle_trigger reminder now w).1 = Ok tt <->
   Forall (fun a => unsplittable a = false) (actions r) /\
   exists o, next_occurrence r now = Ok o) /\
  (forall e,
     (_handle_trigger reminder now w).1 = Raise e ->
     e = ValueError "not enough values to unpack" /\
     Exists (fun a => unsplittable a = true) (actions r)
     \/
     e = compare_error /\
     Forall (fun a => unsplittable a = false) (actions r) /\
     next_occurrence r now = Raise e /\
     exists rr before i later,
       _rrule r = Some rr /\ occurrences rr = before ++ i :: later /\
       aware i = true /\ Forall (passed now) before).
Proof.
  intros Hr. rewrite (handle_trigger_outcome _ _ _ _ Hr).
  destruct (loop_outcome_unsplittable r (actions r)) as [Hok Hraise].
  destruct (loop_outcome r (actions r)) as [[]|e0].
  - pose proof (proj1 Hok eq_refl) as Hall.
    destruct (next_occurrence r now) as [o|e1] eqn:Hn.
    + split; [|discriminate]. split; [by eauto|done].
    + split.
      * split; [discriminate|]. by intros [_ [o [=]]].
      * intros e [= <-]. right.
        destruct (next_occurrence_raise _ _ _ Hn) as [-> Hwhere].
        by repeat split.
  - split.
    + split; [discriminate|]. intros [Hall _]. apply Hok in Hall. discriminate.
    + intros e [= <-]. left. by apply Hraise.
Qed.

(** X2.  A notify action whose service holds a dot is dispatched to the
    part of the service before its first dot and the part after it: the
    two reassemble to the service, the domain holds no dot, and the name
    keeps any further dots. *)
Theorem notify_target_reassembles r a w :
  type a = "notify" ->
  truthy (service a) = true ->
  has_dot (str_of (service a)) = true ->
  exists domain name payload,
    dispatch r a w =
      (Ok tt, add_tasks [{| sc_domain := domain; sc_service := name;
                            sc_data := payload |}] w) /\
    str_of (service a) = (domain ++ String "." name)%string /\
    has_dot domain = false.
Proof.
  intros Hty Hsv Hdot.
  destruct (cut_at_dot (str_of (service a))) as [[d n]|] eqn:Hcut.
  - exists d, n. eexists. split.
    + unfold dispatch. rewrite Hty, Hsv. simpl.
      rewrite bind_run, lift_run. unfold split_dot_1. rewrite Hcut.
      reflexivity.
    + by apply cut_at_dot_Some.
  - apply cut_at_dot_None in Hcut. congruence.
Qed.

(** X3.  A tts action with a non-empty [entity_id] is dispatched as one
    call of [tts.google_translate_say] whose payload holds the entity and
    the reminder's message and nothing else: the action's [data] and
    [service] never reach the call. *)
Theorem tts_call_ignores_data r a w :
  type a = "tts" ->
  truthy (entity_id a) = true ->
  exists payload,
    dispatch r a w =
      (Ok tt, add_tasks [{| sc_domain := "tts";
                            sc_service := "google_translate_say";
                            sc_data := payload |}] w) /\
    payload !! "entity_id" = Some (PStr (str_of (entity_id a))) /\
    payload !! "message" = Some (PStr (message r)) /\
    dom payload = {[ "entity_id"; "message" ]} /\
    (forall a', type a' = "tts" -> entity_id a' = entity_id a ->
                dispatch r a' w = dispatch r a w).
Proof.
  intros Hty He. eexists. split; [|split; [|split; [|split]]].
  - unfold dispatch. rewrite Hty, He. reflexivity.
  - rewrite lookup_insert_eq. destruct (entity_id a); [done|discriminate].
  - rewrite lookup_insert_ne by done. apply lookup_insert_eq.
  - rewrite !dom_insert_L, dom_empty_L. set_solver.
  - intros a' Hty' He'. unfold dispatch. by rewrite Hty, Hty', He'.
Qed.

(** ** The [add_reminder] service, case by case *)

Lemma comprehension_Forall2 {A B} (f : A -> result B) l ys :
  comprehension f l = Ok ys <-> Forall2 (fun x y => f x = Ok y) l ys.
Proof.
  revert ys. induction l as [|x l IH]; intros ys; simpl.
  - split; [by intros [= <-]; constructor | by inversion 1].
  - unfold mbind, result_bind, rbind.
    destruct (f x) as [y|e] eqn:Hx.
    + destruct (comprehension f l) as [ys'|e'] eqn:Hl.
      * split.
        -- intros [= <-]. constructor; [done|]. by apply IH.
        -- inversion 1 as [|? y' ? ys'' Hy Hrest]; subst.
           apply IH in Hrest. congruence.
      * split; [done|]. inversion 1 as [|? y' ? ys'' Hy Hrest]; subst.
        apply IH in Hrest. done.
    + split; [done|]. inversion 1; congruence.
Qed.

Lemma comprehension_Exists {A B} (f : A -> result B) l :
  Exists (fun x => exists e, f x = Raise e) l ->
  exists e, comprehension f l = Raise e.
Proof.
  induction 1 as [x l [e He]|x l _ [e IH]]; simpl;
    unfold mbind, result_bind, rbind.
  - rewrite He. by eexists.
  - destruct (f x); [|by eexists]. rewrite IH. by eexists.
Qed.

Lemma ReminderAction_init_refused a :
  refused a = true <-> exists msg, ReminderAction_init a = Raise (TypeError msg).
Proof.
  unfold refused, ReminderAction_init.
  destruct (kw_other a) as [|k ks]; [destruct (kw_type a)|].
  - split; [done|]. by intros [? ?].
  - split; [by eexists | done].
  - split; [by eexists | done].
Qed.

Lemma ReminderAction_init_Ok kw a :
  ReminderAction_init kw = Ok a <->
  kw_other kw = [] /\ kw_type kw = Some (type a) /\
  service a = kw_service kw /\ entity_id a = kw_entity_id kw /\
  data a = default ∅ (kw_data kw).
Proof.
  unfold ReminderAction_init.
  destruct (kw_other kw) as [|k ks]; [destruct (kw_type kw) as [ty|]|].
  - split.
    + by intros [= <-].
    + intros (_ & [= ->] & Hs & He & Hd). destruct a; simpl in *. by subst.
  - split; [done|]. by intros (_ & ? & _).
  - split; [done|]. by intros (? & _).
Qed.

Lemma Reminder_init_resolved dateparser_parse rrulestr msg st rule acts i r :
  Reminder_init dateparser_parse rrulestr msg st rule acts i = Ok r ->
  resolved dateparser_parse st = Some (start r) /\ rrule r = rule /\
  (if truthy rule then exists rr, rrulestr (str_of rule) (start r) = Ok rr /\
                                  _rrule r = Some rr
   else _rrule r = None).
Proof.
  unfold Reminder_init, __post_init__, resolved, mbind, result_bind, rbind.
  destruct st as [s|t].
  - destruct (dateparser_parse s) as [p|]; [|discriminate].
    destruct (truthy rule).
    + destruct (rrulestr _ p) as [rr|e] eqn:Hrr; [|discriminate].
      intros [= <-]. simpl. eauto.
    + by intros [= <-].
  - destruct (truthy rule).
    + destruct (rrulestr _ t) as [rr|e] eqn:Hrr; [|discriminate].
      intros [= <-]. simpl. eauto.
    + by intros [= <-].
Qed.

(** X4.  An add request is all or nothing.  When [handle_add] raises,
    the state is exactly what it was: nothing registered, no timer armed,
    no object left behind.  When it returns, one new object exists, it is
    registered under the drawn id, one timer is armed for it with the next
    handle, and nothing is dispatched or emitted. *)
Theorem handle_add_all_or_nothing dateparser_parse rrulestr call uuid w :
  match handle_add dateparser_parse rrulestr call uuid w with
  | (Raise _, w') => w' = w
  | (Ok _, w') =>
      _reminders w' = <[uuid := fresh (dom (heap w))]> (_reminders w) /\
      (exists when,
         timers w' = timers w ++ [{| tm_handle := armed w; tm_when := when;
                                     tm_reminder := fresh (dom (heap w)) |}]) /\
      dom (heap w') = {[ fresh (dom (heap w)) ]} ∪ dom (heap w) /\
      armed w' = S (armed w) /\ tasks w' = tasks w /\ bus w' = bus w
  end.
Proof.
  rewrite handle_add_run.
  destruct (comprehension _ _) as [acts|e]; [|done].
  destruct (getitem "message" _) as [msg|e]; [|done].
  destruct (getitem "start" _) as [st|e]; [|done].
  destruct (Reminder_init _ _ _ _ _ _ _) as [r|e] eqn:Hr; [|done].
  destruct (Reminder_init_fields _ _ _ _ _ _ _ _ Hr) as (_ & Hid & _).
  rewrite alloc_add_run. cbn [_reminders timers heap armed tasks bus].
  rewrite Hid. split; [done|]. split; [by eexists|].
  split; [|done]. apply set_eq. intros l.
  rewrite elem_of_union, elem_of_singleton, !elem_of_dom.
  destruct (decide (l = fresh (dom (heap w)))) as [->|Hne].
  - rewrite lookup_alter_eq, lookup_insert_eq. simpl. split; [by left|eauto].
  - rewrite lookup_alter_ne, lookup_insert_ne by done.
    split; [by right | by intros [?|?]].
Qed.

Lemma handle_add_Ok dateparser_parse rrulestr call uuid w w' :
  handle_add dateparser_parse rrulestr call uuid w = (Ok tt, w') ->
  exists acts msg st r,
    comprehension ReminderAction_init (default [] (d_actions call)) = Ok acts /\
    d_message call = Some msg /\ d_start call = Some st /\
    Reminder_init dateparser_parse rrulestr msg st (d_rrule call) acts uuid
      = Ok r /\
    (alloc r ≫= add) w = (Ok tt, w').
Proof.
  rewrite handle_add_run.
  destruct (comprehension _ _) as [acts|e]; [|discriminate].
  destruct (d_message call) as [msg|]; [|discriminate].
  destruct (d_start call) as [st|]; [|discriminate]. simpl.
  destruct (Reminder_init _ _ _ _ _ _ _) as [r|e] eqn:Hr; [|discriminate].
  intros Hrun. by exists acts, msg, st, r.
Qed.

(** X5.  What an accepted request registers is what it asked for.  The
    object found under the drawn id carries the request's message and
    rule, the datetime its [start] stands for, and one action per entry of
    the request, in the order of the request, with [None] and the empty
    dict for the keys an entry leaves out; its [_cancel] is the handle of
    a timer armed for that datetime on that object. *)
Theorem handle_add_registers_request dateparser_parse rrulestr call uuid w w' :
  handle_add dateparser_parse rrulestr call uuid w = (Ok tt, w') ->
  exists l r st t,
    _reminders w' !! uuid = Some l /\ heap w' !! l = Some r /\
    id r = uuid /\
    d_message call = Some (message r) /\
    rrule r = d_rrule call /\
    d_start call = Some st /\
    resolved dateparser_parse st = Some (start r) /\
    Forall2 (fun kw a =>
               kw_type kw = Some (type a) /\ service a = kw_service kw /\
               entity_id a = kw_entity_id kw /\
               data a = default ∅ (kw_data kw))
            (default [] (d_actions call)) (actions r) /\
    t ∈ timers w' /\ tm_reminder t = l /\ tm_when t = start r /\
    _cancel r = Some (tm_handle t).
Proof.
  intros Hrun.
  destruct (handle_add_Ok _ _ _ _ _ _ Hrun)
    as (acts & msg & st & r & Hacts & Hmsg & Hst & Hr & Hadd).
  destruct (Reminder_init_fields _ _ _ _ _ _ _ _ Hr)
    as (Hm & Hid & Ha & _).
  destruct (Reminder_init_resolved _ _ _ _ _ _ _ _ Hr) as (Hres & Hrule & _).
  rewrite alloc_add_run in Hadd. injection Hadd as <-.
  exists (fresh (dom (heap w))), (set_cancel (armed w) r), st.
  eexists. cbn [_reminders heap timers].
  split; [by rewrite Hid, lookup_insert_eq|].
  split; [by rewrite lookup_alter_eq, lookup_insert_eq|].
  cbn [set_cancel id message rrule start actions _cancel].
  split; [done|]. split; [by rewrite Hm|]. split; [done|]. split; [done|].
  split; [done|]. split.
  { rewrite Ha. apply comprehension_Forall2 in Hacts.
    eapply Forall2_impl; [exact Hacts|]. simpl.
    intros kw a Hkw. apply ReminderAction_init_Ok in Hkw. tauto. }
  split; [apply elem_of_app; right; apply list_elem_of_singleton; reflexivity|].
  done.
Qed.

(** X6.  One refused entry in the [actions] list rejects the whole
    request: an entry with a key that is not a field of [ReminderAction],
    or without [type], makes [handle_add] raise [TypeError] and leave the
    state as it was, whatever the message, the start and the rule of the
    request are, and even when they are missing. *)
Theorem refused_action_rejects_request
    dateparser_parse rrulestr call uuid w entries :
  d_actions call = Some entries ->
  Exists (fun a => refused a = true) entries ->
  exists msg,
    handle_add dateparser_parse rrulestr call uuid w = (Raise (TypeError msg), w).
Proof.
  intros Hacts Hex. rewrite handle_add_run, Hacts. simpl. clear Hacts.
  assert (exists msg,
            comprehension ReminderAction_init entries = Raise (TypeError msg))
    as [msg ->]; [|by eexists].
  induction Hex as [a l Ha|a l _ [msg IH]]; simpl;
    unfold mbind, result_bind, rbind.
  - apply ReminderAction_init_refused in Ha as [msg ->]. by eexists.
  - destruct (ReminderAction_init a) as [y|e] eqn:Hy.
    + rewrite IH. by eexists.
    + destruct (refused a) eqn:Hr.
      * apply ReminderAction_init_refused in Hr as [msg' Hr].
        rewrite Hr in Hy. injection Hy as <-. by eexists.
      * exfalso. unfold refused, ReminderAction_init in *.
        destruct (kw_other a); [destruct (kw_type a)|]; discriminate.
Qed.

(** X7.  A rule that does not compile rejects the request.  When the
    request's actions, message and start are in order and its rule is a
    non-empty string that [rrulestr], anchored at the resolved start,
    refuses, constructing the reminder raises what [rrulestr] raised, and
    [handle_add] raises it too and leaves the state as it was. *)
Theorem invalid_rrule_rejected
    dateparser_parse rrulestr call uuid w acts msg st t rule e :
  comprehension ReminderAction_init (default [] (d_actions call)) = Ok acts ->
  d_message call = Some msg ->
  d_start call = Some st ->
  resolved dateparser_parse st = Some t ->
  d_rrule call = Some rule ->
  rule ≠ "" ->
  rrulestr rule t = Raise e ->
  Reminder_init dateparser_parse rrulestr msg st (Some rule) acts uuid
    = Raise e /\
  handle_add dateparser_parse rrulestr call uuid w = (Raise e, w).
Proof.
  intros Hacts Hmsg Hst Hres Hrule Hne Hrr.
  assert (Hinit : Reminder_init dateparser_parse rrulestr msg st (Some rule)
                    acts uuid = Raise e).
  { unfold Reminder_init, __post_init__, mbind, result_bind, rbind. simpl.
    destruct (String.eqb_spec rule "") as [|_]; [done|]. simpl.
    destruct st as [s|t']; simpl in Hres.
    - by rewrite Hres, Hrr.
    - injection Hres as ->. by rewrite Hrr. }
  split; [exact Hinit|].
  by rewrite handle_add_run, Hacts, Hmsg, Hst, Hrule; simpl; rewrite Hinit.
Qed.

(** X8.  An empty rule is no rule.  When the rule is absent or the empty
    string, construction never consults [rrulestr]: the outcome is the
    same whatever the rule compiler would do, the rule is kept as given,
    and the reminder built has no next occurrence at any clock reading. *)
Theorem empty_rrule_is_one_shot
    dateparser_parse rrulestr rrulestr' msg st rule acts i :
  truthy rule = false ->
  Reminder_init dateparser_parse rrulestr msg st rule acts i =
  Reminder_init dateparser_parse rrulestr' msg st rule acts i /\
  (forall r,
     Reminder_init dateparser_parse rrulestr msg st rule acts i = Ok r ->
     rrule r = rule /\ _rrule r = None /\
     forall now, next_occurrence r now = Ok None).
Proof.
  intros Ht. split.
  - unfold Reminder_init, __post_init__. by rewrite Ht.
  - intros r Hr.
    destruct (Reminder_init_resolved _ _ _ _ _ _ _ _ Hr) as (_ & Hrule & Hrr).
    rewrite Ht in Hrr. split; [done|]. split; [done|].
    intros now. unfold next_occurrence. by rewrite Hrr.
Qed.

(** X9.  An add request touches nothing that was there.  Whatever its
    outcome, the objects that existed are as they were, every id other
    than the drawn one is registered as before, the timers that were armed
    are still armed, in place, and the task queue and the bus are as they
    were. *)
Theorem handle_add_frame dateparser_parse rrulestr call uuid w :
  (forall l, l ∈ dom (heap w) ->
     heap (handle_add dateparser_parse rrulestr call uuid w).2 !! l
     = heap w !! l) /\
  (forall k, k ≠ uuid ->
     _reminders (handle_add dateparser_parse rrulestr call uuid w).2 !! k
     = _reminders w !! k) /\
  timers w `prefix_of`
    timers (handle_add dateparser_parse rrulestr call uuid w).2 /\
  tasks (handle_add dateparser_parse rrulestr call uuid w).2 = tasks w /\
  bus (handle_add dateparser_parse rrulestr call uuid w).2 = bus w.
Proof.
  rewrite handle_add_run.
  destruct (comprehension _ _) as [acts|e]; [|by repeat split].
  destruct (getitem "message" _) as [msg|e]; [|by repeat split].
  destruct (getitem "start" _) as [st|e]; [|by repeat split].
  destruct (Reminder_init _ _ _ _ _ _ _) as [r|e] eqn:Hr; [|by repeat split].
  destruct (Reminder_init_fields _ _ _ _ _ _ _ _ Hr) as (_ & Hid & _).
  rewrite alloc_add_run. cbn [snd heap _reminders timers tasks bus].
  split; [|split; [|split; [|done]]].
  - intros l Hl.
    assert (l ≠ fresh (dom (heap w))) by (intros ->; by apply is_fresh in Hl).
    by rewrite lookup_alter_ne, lookup_insert_ne.
  - intros k Hk. rewrite Hid. by rewrite lookup_insert_ne.
  - by apply prefix_app_r.
Qed.

(** ** What a trigger leaves alone *)

(** X10.  A trigger touches only the reminder it is run on.  Every other
    object is as it was; the triggered object keeps its message, start,
    rule, actions and id; every id other than its own is registered as
    before; the timers that were armed are still armed, in place; and the
    task queue and the bus only grow at their end.  This holds whether the
    trigger returns or raises. *)
Theorem handle_trigger_frame w reminder r now :
  heap w !! reminder = Some r ->
  (forall l, l ≠ reminder ->
     heap (_handle_trigger reminder now w).2 !! l = heap w !! l) /\
  (exists r',
     heap (_handle_trigger reminder now w).2 !! reminder = Some r' /\
     message r' = message r /\ start r' = start r /\ rrule r' = rrule r /\
     actions r' = actions r /\ id r' = id r /\ _rrule r' = _rrule r) /\
  (forall k, k ≠ id r ->
     _reminders (_handle_trigger reminder now w).2 !! k = _reminders w !! k) /\
  timers w `prefix_of` timers (_handle_trigger reminder now w).2 /\
  tasks w `prefix_of` tasks (_handle_trigger reminder now w).2 /\
  bus w `prefix_of` bus (_handle_trigger reminder now w).2.
Proof.
  intros Hr. rewrite (handle_trigger_run _ _ _ _ Hr).
  destruct (loop_outcome r (actions r)) as [[]|e];
    [destruct (next_occurrence r now) as [[t|]|e]|];
    cbn [snd heap _reminders timers tasks bus rearmed retired add_event
         add_tasks].
  - split; [by intros l Hl; rewrite lookup_alter_ne|].
    split; [exists (set_cancel (armed w) r);
            by rewrite lookup_alter_eq, Hr|].
    split; [done|]. split; [by apply prefix_app_r|].
    split; [by apply prefix_app_r | by apply prefix_app_r].
  - split; [done|]. split; [by exists r|].
    split; [by intros k Hk; rewrite lookup_delete_ne|]. split; [done|].
    split; [by apply prefix_app_r | by apply prefix_app_r].
  - split; [done|]. split; [by exists r|]. split; [done|]. split; [done|].
    split; [by apply prefix_app_r | by apply prefix_app_r].
  - split; [done|]. split; [by exists r|]. split; [done|]. split; [done|].
    split; [by apply prefix_app_r | done].
Qed.

(** X11.  Retiring goes by id, not by object.  When the id of a reminder
    that has no next occurrence, and whose actions all dispatch without
    raising, is registered for another object, the trigger of the first
    removes the registration of the second: the id is gone from the
    registry while every timer, those of the second object included, is
    still armed. *)
Theorem retire_unregisters_twin w old ro new now :
  heap w !! old = Some ro ->
  _reminders w !! id ro = Some new ->
  new ≠ old ->
  next_occurrence ro now = Ok None ->
  Forall (fun a => unsplittable a = false) (actions ro) ->
  exists w',
    _handle_trigger old now w = (Ok tt, w') /\
    _reminders w' !! id ro = None /\
    timers w' = timers w /\
    heap w' = heap w.
Proof.
  intros Hold Hreg Hne Hnext Hacts.
  apply (loop_outcome_unsplittable ro) in Hacts.
  rewrite (handle_trigger_run _ _ _ _ Hold), Hacts, Hnext. simpl.
  eexists. split; [reflexivity|]. cbn [_reminders timers heap].
  split; [apply lookup_delete_eq | done].
Qed.

(** X12.  [_schedule] overwrites the handle it stored, it cancels
    nothing.  Scheduling a reminder twice, for any two datetimes, past or
    future, leaves both timers armed, one after the other, and the
    reminder's [_cancel] is the handle of the second one only. *)
Theorem schedule_twice_keeps_both_timers w reminder r when1 when2 :
  heap w !! reminder = Some r ->
  exists w',
    (_schedule reminder when1 ≫= fun _ => _schedule reminder when2) w
      = (Ok tt, w') /\
    timers w' = timers w ++
      [{| tm_handle := armed w; tm_when := when1; tm_reminder := reminder |};
       {| tm_handle := S (armed w); tm_when := when2;
          tm_reminder := reminder |}] /\
    _cancel <$> heap w' !! reminder = Some (Some (S (armed w))) /\
    _reminders w' = _reminders w.
Proof.
  intros Hr. rewrite bind_run, !schedule_run.
  eexists. split; [reflexivity|]. cbn [timers heap _reminders rearmed armed].
  split; [by rewrite <- app_assoc|]. split; [|done].
  by rewrite !lookup_alter_eq, Hr.
Qed.

(** ** The clock reading of a trigger *)

Lemma find_skip {A} (f : A -> bool) (before : list A) (l : list A) :
  Forall (fun y => f y = false) before -> find f (before ++ l) = find f l.
Proof.
  induction 1 as [|y before Hy _ IH]; simpl; [done|]. by rewrite Hy.
Qed.

Lemma find_all_false {A} (f : A -> bool) (l : list A) :
  Forall (fun y => f y = false) l -> find f l = None.
Proof.
  intros H. rewrite <- (app_nil_r l). by rewrite find_skip.
Qed.

Lemma first_after_all_passed (now : Z) l :
  Forall (passed now) l -> first_after l (utcnow now) false = Ok None.
Proof.
  intros H. rewrite <- (app_nil_r l). by rewrite first_after_skip.
Qed.

Lemma passed_later (now now' : Z) l :
  now <= now' -> Forall (passed now) l -> Forall (passed now') l.
Proof.
  intros Hle H. eapply Forall_impl; [exact H|].
  intros i [Hi Hs]. split; [done|lia].
Qed.

(** X13.  How late a trigger runs does not shift the schedule.  If the
    next occurrence at clock reading [now] is [t], it is [t] at every
    later reading before [t]; once the rule yields nothing it yields
    nothing at every later reading; and once [next_occurrence] raises it
    raises the same at every later reading. *)
Theorem next_occurrence_ignores_lateness r (now now' : Z) :
  now <= now' ->
  (forall t, next_occurrence r now = Ok (Some t) -> now' < stamp t ->
             next_occurrence r now' = Ok (Some t)) /\
  (next_occurrence r now = Ok None -> next_occurrence r now' = Ok None) /\
  (forall e, next_occurrence r now = Raise e ->
             next_occurrence r now' = Raise e).
Proof.
  intros Hle. unfold next_occurrence, after.
  destruct (_rrule r) as [rr|]; [|done].
  pose proof (first_after_spec now (occurrences rr)) as Hspec.
  destruct (first_after (occurrences rr) (utcnow now) false) as [[t0|]|e0].
  - destruct Hspec as (Ht0 & _ & before & later & -> & Hb).
    split; [|done]. intros t [= <-] Hlt.
    rewrite first_after_skip by (by eapply passed_later).
    simpl. unfold dt_lt. simpl. rewrite Ht0. simpl.
    by destruct (Z.ltb_spec now' (stamp t0)); [|lia].
  - split; [done|]. split; [|done]. intros _.
    apply first_after_all_passed. by eapply passed_later.
  - destruct Hspec as (-> & before & i & later & -> & Hi & Hb).
    split; [done|]. split; [done|]. intros e [= <-].
    rewrite first_after_skip by (by eapply passed_later).
    simpl. unfold dt_lt. simpl. by rewrite Hi.
Qed.

(** ** Delivering a timer *)

Lemma find_handle_None (h : handle) (l : list timer) :
  (forall t, t ∈ l -> tm_handle t ≠ h) ->
  find (fun t => Nat.eqb (tm_handle t) h) l = None.
Proof.
  intros H. apply find_all_false, Forall_forall. intros t Ht.
  apply Nat.eqb_neq. by apply H.
Qed.

Lemma find_handle_Some (h : handle) (l : list timer) t :
  find (fun t => Nat.eqb (tm_handle t) h) l = Some t ->
  t ∈ l /\ tm_handle t = h.
Proof.
  intros H. apply find_some in H as [Hin Heq].
  split; [by apply list_elem_of_In | by apply Nat.eqb_eq].
Qed.

(** ** The registry and the timers agree *)

Lemma NoDup_fmap_eq {A B} (f : A -> B) (l : list A) x y :
  NoDup (f <$> l) -> x ∈ l -> y ∈ l -> f x = f y -> x = y.
Proof.
  induction l as [|z l IH]; simpl; [by intros _ Hx; inversion Hx|].
  intros [Hz Hl]%NoDup_cons Hx Hy Heq.
  apply elem_of_cons in Hx as [->|Hx]; apply elem_of_cons in Hy as [->|Hy].
  - done.
  - exfalso. apply Hz. rewrite Heq. by apply list_elem_of_fmap_2.
  - exfalso. apply Hz. rewrite <- Heq. by apply list_elem_of_fmap_2.
  - by apply IH.
Qed.

Lemma NoDup_fmap_filter {A B} (f : A -> B) (P : A -> Prop)
    `{!forall x, Decision (P x)} (l : list A) :
  NoDup (f <$> l) -> NoDup (f <$> filter P l).
Proof.
  intros Hnd. eapply sublist_NoDup; [exact Hnd|].
  apply fmap_sublist, sublist_filter.
Qed.

Lemma NoDup_fmap_snoc {A B} (f : A -> B) (l : list A) x :
  NoDup (f <$> l) -> (forall y, y ∈ l -> f y ≠ f x) ->
  NoDup (f <$> l ++ [x]).
Proof.
  intros Hl Hx. rewrite fmap_app. apply NoDup_app. split; [done|]. split.
  - intros b Hb Hb'. apply list_elem_of_fmap in Hb as (y & -> & Hy).
    apply list_elem_of_singleton in Hb'. by apply (Hx y).
  - apply NoDup_singleton.
Qed.

Lemma consistent_nothing : consistent nothing.
Proof.
  split; simpl.
  - intros t Ht. inversion Ht.
  - constructor.
  - constructor.
  - intros t Ht. inversion Ht.
  - intros k l Hk. by rewrite lookup_empty in Hk.
Qed.

Lemma consistent_alloc_add r w :
  consistent w ->
  _reminders w !! id r = None ->
  consistent ((alloc r ≫= add) w).2.
Proof.
  intros [Hissued Hh Hone Htr Hra] Hfresh. rewrite alloc_add_run.
  set (l := fresh (dom (heap w))).
  assert (Hl : heap w !! l = None)
    by (apply not_elem_of_dom, is_fresh).
  assert (Hold : forall t, t ∈ timers w -> tm_reminder t ≠ l).
  { intros t Ht Heq. destruct (Htr t Ht) as (r0 & Hr0 & _). congruence. }
  split; cbn [snd timers armed heap _reminders].
  - intros t Ht. apply elem_of_app in Ht as [Ht|Ht].
    + specialize (Hissued _ Ht). lia.
    + apply list_elem_of_singleton in Ht as ->. simpl. lia.
  - apply NoDup_fmap_snoc; [done|]. intros t Ht. simpl.
    specialize (Hissued _ Ht). lia.
  - apply NoDup_fmap_snoc; [done|]. intros t Ht. simpl. by apply Hold.
  - intros t Ht. apply elem_of_app in Ht as [Ht|Ht].
    + destruct (Htr t Ht) as (r0 & Hr0 & Hreg & Hc). exists r0.
      rewrite lookup_alter_ne, lookup_insert_ne by (symmetry; by apply Hold).
      split; [done|]. split; [|done].
      rewrite lookup_insert_ne; [done|]. intros Heq. congruence.
    + apply list_elem_of_singleton in Ht as ->. simpl.
      exists (set_cancel (armed w) r).
      rewrite lookup_alter_eq, lookup_insert_eq. simpl.
      split; [done|]. by rewrite lookup_insert_eq.
  - intros k l0 Hk. destruct (decide (k = id r)) as [->|Hne].
    + rewrite lookup_insert_eq in Hk. injection Hk as <-.
      exists (set_cancel (armed w) r). eexists.
      rewrite lookup_alter_eq, lookup_insert_eq. simpl.
      split; [done|]. split; [done|].
      split; [apply elem_of_app; right; by apply list_elem_of_singleton|].
      done.
    + rewrite lookup_insert_ne in Hk by done.
      destruct (Hra k l0 Hk) as (r0 & t & Hr0 & Hid & Ht & Htl).
      exists r0, t.
      rewrite lookup_alter_ne, lookup_insert_ne by congruence.
      split; [done|]. split; [done|].
      split; [apply elem_of_app; by left | done].
Qed.

Lemma consistent_fire w h now :
  consistent w ->
  (fire h now w).1 = Ok tt ->
  consistent (fire h now w).2.
Proof.
  intros Hw. pose proof Hw as [Hissued Hh Hone Htr Hra]. unfold fire.
  destruct (find (fun t => Nat.eqb (tm_handle t) h) (timers w)) as [t0|]
    eqn:Hfind; [|done].
  destruct (find_handle_Some _ _ _ Hfind) as [Hin0 Hh0].
  destruct (Htr t0 Hin0) as (r0 & Hr0 & Hreg0 & _).
  set (l0 := tm_reminder t0) in *.
  set (F := filter (fun t => tm_handle t ≠ h) (timers w)).
  assert (HF : forall t, t ∈ F <-> tm_handle t ≠ h /\ t ∈ timers w)
    by (intros t; unfold F; by rewrite list_elem_of_filter).
  assert (Hkeep : forall t, t ∈ timers w -> tm_reminder t ≠ l0 -> t ∈ F).
  { intros t Ht Hne. apply HF. split; [|done]. intros Heq. apply Hne.
    rewrite (NoDup_fmap_eq tm_handle (timers w) t t0); [done..|congruence]. }
  assert (Hother : forall t, t ∈ F -> tm_reminder t ≠ l0).
  { intros t [Hne Ht]%HF Heq. apply Hne.
    by rewrite (NoDup_fmap_eq tm_reminder (timers w) t t0). }
  erewrite handle_trigger_run by exact Hr0.
  destruct (loop_outcome r0 (actions r0)) as [[]|e]; [|discriminate].
  destruct (next_occurrence r0 now) as [[t'|]|e']; [| |discriminate];
    intros _; cbn [snd]; split;
    cbn [timers armed heap _reminders rearmed retired add_event add_tasks
         spent];
    fold F.
  - intros t Ht. apply elem_of_app in Ht as [Ht|Ht].
    + apply HF in Ht as [_ Ht]. specialize (Hissued _ Ht). lia.
    + apply list_elem_of_singleton in Ht as ->. simpl. lia.
  - apply NoDup_fmap_snoc; [by apply NoDup_fmap_filter|].
    intros t [_ Ht]%HF. simpl. specialize (Hissued _ Ht). lia.
  - apply NoDup_fmap_snoc; [by apply NoDup_fmap_filter|].
    intros t Ht. simpl. by apply Hother.
  - intros t Ht. apply elem_of_app in Ht as [Ht|Ht].
    + pose proof (Hother _ Ht) as Hne. apply HF in Ht as [_ Ht].
      destruct (Htr t Ht) as (r & Hr & Hreg & Hc). exists r.
      by rewrite lookup_alter_ne by done.
    + apply list_elem_of_singleton in Ht as ->. simpl.
      exists (set_cancel (armed w) r0). fold l0.
      rewrite lookup_alter_eq, Hr0. done.
  - intros k l Hk. destruct (Hra k l Hk) as (r & t & Hr & Hid & Ht & Htl).
    destruct (decide (l = l0)) as [->|Hne].
    + exists (set_cancel (armed w) r0). eexists.
      rewrite lookup_alter_eq, Hr0. simpl.
      split; [done|]. split; [congruence|].
      split; [apply elem_of_app; right; by apply list_elem_of_singleton|].
      done.
    + exists r, t. rewrite lookup_alter_ne by done.
      split; [done|]. split; [done|].
      split; [apply elem_of_app; left; apply Hkeep; congruence | done].
  - intros t [_ Ht]%HF. by apply Hissued.
  - by apply NoDup_fmap_filter.
  - by apply NoDup_fmap_filter.
  - intros t Ht. pose proof (Hother _ Ht) as Hne. apply HF in Ht as [_ Ht].
    destruct (Htr t Ht) as (r & Hr & Hreg & Hc). exists r.
    split; [done|]. split; [|done].
    rewrite lookup_delete_ne; [done|]. intros Heq. congruence.
  - intros k l Hk. apply lookup_delete_Some in Hk as [Hne Hk].
    destruct (Hra k l Hk) as (r & t & Hr & Hid & Ht & Htl).
    exists r, t. split; [done|]. split; [done|]. split; [|done].
    apply Hkeep; [done|]. intros Heq. apply Hne.
    rewrite Htl in Heq. subst l. congruence.
Qed.

(** X14.  The registry and the timers stay in agreement.  A host that has
    seen nothing is consistent; an add request under an id that is not
    registered keeps the state consistent, whether it is accepted or
    rejected; and so does every timer delivery whose trigger returns
    normally.  In a consistent state every registered reminder has exactly
    one armed timer, its [_cancel] is the handle of that timer, and no
    timer is armed for a reminder that is not registered. *)
Theorem registry_and_timers_agree :
  consistent nothing /\
  (forall dateparser_parse rrulestr call uuid w,
     consistent w ->
     _reminders w !! uuid = None ->
     consistent (handle_add dateparser_parse rrulestr call uuid w).2) /\
  (forall w h now,
     consistent w ->
     (fire h now w).1 = Ok tt ->
     consistent (fire h now w).2).
Proof.
  split; [exact consistent_nothing|]. split; [|exact consistent_fire].
  intros p rr call uuid w Hw Hfresh. rewrite handle_add_run.
  destruct (comprehension _ _) as [acts|e]; [|done].
  destruct (getitem "message" _) as [msg|e]; [|done].
  destruct (getitem "start" _) as [st|e]; [|done].
  destruct (Reminder_init _ _ _ _ _ _ _) as [r|e] eqn:Hr; [|done].
  destruct (Reminder_init_fields _ _ _ _ _ _ _ _ Hr) as (_ & Hid & _).
  apply consistent_alloc_add; [done|]. by rewrite Hid.
Qed.

(** ** A recurring reminder, from its first delivery to its last *)

Lemma find_head_filter (now : Z) (l : list datetime) :
  find (fun i => now <? stamp i) l = head (filter (fun o => now < stamp o) l).
Proof.
  induction l as [|x l IH]; simpl; [done|].
  destruct (Z.ltb_spec now (stamp x)) as [Hlt|Hge].
  - by rewrite filter_cons_True.
  - rewrite filter_cons_False by lia. exact IH.
Qed.

Lemma filter_keeps_all {A} (P : A -> Prop) `{!forall x, Decision (P x)}
    (l : list A) :
  Forall P l -> filter P l = l.
Proof.
  induction 1 as [|x l Hx _ IH]; [done|].
  by rewrite filter_cons_True, IH.
Qed.

Lemma filter_drops_all {A} (P : A -> Prop) `{!forall x, Decision (P x)}
    (l : list A) :
  Forall (fun x => ~ P x) l -> filter P l = [].
Proof.
  induction 1 as [|x l Hx _ IH]; [done|].
  by rewrite filter_cons_False.
Qed.

Lemma sorted_filter_step (now : Z) (o : datetime) (l rest : list datetime) :
  StronglySorted earlier l ->
  filter (fun x => now < stamp x) l = o :: rest ->
  filter (fun x => stamp o < stamp x) l = rest.
Proof.
  unfold earlier. induction l as [|x l IH]; [done|].
  intros [Hall Hs]%StronglySorted_cons.
  destruct (decide (now < stamp x)) as [Hlt|Hge].
  - rewrite filter_cons_True by done.
    rewrite (filter_keeps_all (fun y => now < stamp y) l)
      by (eapply Forall_impl; [exact Hall|]; simpl; intros; lia).
    intros [= -> ->]. rewrite filter_cons_False by lia.
    by apply filter_keeps_all.
  - rewrite filter_cons_False by done. intros Hf.
    assert (now < stamp o).
    { assert (Ho : o ∈ filter (fun y => now < stamp y) l)
        by (rewrite Hf; apply list_elem_of_here).
      by apply list_elem_of_filter in Ho as [? _]. }
    rewrite filter_cons_False by lia. by apply IH.
Qed.

Lemma deliver_no_timer fuel h w :
  (forall t, t ∈ timers w -> tm_handle t ≠ h) ->
  deliver_on_time fuel h w = (Ok tt, w, []).
Proof.
  intros Hnone. destruct fuel as [|n]; simpl; [done|].
  by rewrite find_handle_None.
Qed.

Ltac state_fields :=
  cbn [rearmed retired add_event add_tasks timers armed heap _reminders
       tasks bus].

Ltac state_fields_in H :=
  cbn [rearmed retired add_event add_tasks timers armed heap _reminders
       tasks bus] in H.

Lemma deliver_on_time_run later :
  forall w h t r rr fuel,
    (forall t', t' ∈ timers w -> (tm_handle t' < armed w)%nat) ->
    find (fun t' => Nat.eqb (tm_handle t') h) (timers w) = Some t ->
    heap w !! tm_reminder t = Some r ->
    _rrule r = Some rr ->
    Forall (fun o => aware o = false) (occurrences rr) ->
    StronglySorted earlier (occurrences rr) ->
    Forall (fun a => unsplittable a = false) (actions r) ->
    filter (fun o => stamp (tm_when t) < stamp o) (occurrences rr) = later ->
    (length later < fuel)%nat ->
    exists w',
      deliver_on_time fuel h w = (Ok tt, w', tm_when t :: later) /\
      bus w' = bus w ++ replicate (S (length later)) (triggered r) /\
      tasks w' = tasks w ++
                 concat (replicate (S (length later))
                           (loop_calls r (actions r))) /\
      _reminders w' = delete (id r) (_reminders w) /\
      timers w' = filter (fun t' => tm_handle t' ≠ h) (timers w) /\
      armed w' = (armed w + length later)%nat.
Proof.
  induction later as [|o later IH];
    intros w h t r rr fuel Hissued Hfind Hr Hrr Hnaive Hsorted Hacts Hlater
      Hfuel;
    (destruct fuel as [|n]; [simpl in Hfuel; lia|]);
    destruct (find_handle_Some _ _ _ Hfind) as [Hin Hh];
    pose proof (proj2 (proj1 (loop_outcome_unsplittable r (actions r))))
      as Hloop; specialize (Hloop Hacts);
    assert (Hnext : next_occurrence r (stamp (tm_when t)) = Ok (head (filter
              (fun o => stamp (tm_when t) < stamp o) (occurrences rr))))
      by (rewrite (next_occurrence_naive r rr _ Hrr Hnaive);
          by rewrite find_head_filter);
    rewrite Hlater in Hnext; simpl in Hnext;
    cbn [deliver_on_time]; rewrite Hfind; unfold fire; rewrite Hfind;
    (erewrite handle_trigger_run by exact Hr); rewrite Hloop, Hnext;
    cbn [rearmed retired add_event add_tasks timers armed heap _reminders
         tasks bus].
  - rewrite deliver_no_timer.
    + eexists. split; [reflexivity|].
      cbn [bus tasks _reminders timers armed length replicate concat].
      rewrite app_nil_r, Nat.add_0_r. done.
    + cbn [timers]. intros t' [_ Ht']%list_elem_of_filter.
      specialize (Hissued _ Ht'). lia.
  - set (F := filter (fun t' => tm_handle t' ≠ h) (timers w)).
    set (tn := {| tm_handle := armed w; tm_when := o;
                  tm_reminder := tm_reminder t |}).
    assert (HF : forall t', t' ∈ F -> tm_handle t' ≠ armed w).
    { intros t' [_ Ht']%list_elem_of_filter.
      specialize (Hissued _ Ht'). lia. }
    match goal with
    | |- context [deliver_on_time n (armed w) ?w1] =>
        destruct (IH w1 (armed w) tn (set_cancel (armed w) r) rr n)
          as (w' & Hrun & Hbus & Htasks & Hreg & Htimers & Harmed)
    end.
    + state_fields. intros t' Ht'.
      apply elem_of_app in Ht' as [Ht'|Ht'].
      * apply list_elem_of_filter in Ht' as [_ Ht'].
        specialize (Hissued _ Ht'). lia.
      * apply list_elem_of_singleton in Ht' as ->. simpl. lia.
    + state_fields. fold F. rewrite find_skip.
      * simpl. by rewrite Nat.eqb_refl.
      * apply Forall_forall. intros t' Ht'. apply Nat.eqb_neq. by apply HF.
    + state_fields. cbn [tm_reminder tn]. by rewrite lookup_alter_eq, Hr.
    + done.
    + done.
    + done.
    + done.
    + cbn [tm_when tn]. by eapply sorted_filter_step.
    + simpl in Hfuel. lia.
    + rewrite Hrun. exists w'. split; [reflexivity|].
      state_fields_in Hbus; state_fields_in Htasks; state_fields_in Hreg;
      state_fields_in Htimers; state_fields_in Harmed.
      split; [|split; [|split; [|split]]].
      * rewrite Hbus. change (triggered (set_cancel (armed w) r))
          with (triggered r). by rewrite <- app_assoc.
      * rewrite Htasks. cbn [actions set_cancel].
        destruct (loop_message (set_cancel (armed w) r) r (actions r) eq_refl)
          as [_ ->].
        by rewrite <- app_assoc.
      * done.
      * rewrite Htimers. fold F. rewrite filter_app.
        rewrite (filter_keeps_all _ F) by (apply Forall_forall; exact HF).
        rewrite (filter_drops_all _ [tn]); [by rewrite app_nil_r|].
        constructor; [|constructor]. simpl. intros Hne. by apply Hne.
      * rewrite Harmed. simpl. lia.
Qed.

(** X15.  Delivered on time, a recurring reminder fires once at the
    reading it was armed for and once at each occurrence of its rule after
    that reading, in order, and is then retired.  With a rule whose
    occurrences are naive and increase, and actions that all dispatch, the
    deliveries happen at exactly those datetimes, each emits the event
    once and queues the calls of the actions once, the id is removed from
    the registry at the end, and the timers left are the timers armed
    before other than the one delivered first: every timer the reminder
    armed on the way has been delivered, and no other timer is touched. *)
Theorem recurring_lifecycle w h t r rr fuel :
  (forall t', t' ∈ timers w -> (tm_handle t' < armed w)%nat) ->
  find (fun t' => Nat.eqb (tm_handle t') h) (timers w) = Some t ->
  heap w !! tm_reminder t = Some r ->
  _rrule r = Some rr ->
  Forall (fun o => aware o = false) (occurrences rr) ->
  StronglySorted earlier (occurrences rr) ->
  Forall (fun a => unsplittable a = false) (actions r) ->
  (length (filter (fun o => (stamp (tm_when t) < stamp o)%Z) (occurrences rr))
   < fuel)%nat ->
  exists w',
    deliver_on_time fuel h w =
      (Ok tt, w',
       tm_when t ::
       filter (fun o => stamp (tm_when t) < stamp o) (occurrences rr)) /\
    bus w' = bus w ++
      replicate
        (S (length (filter (fun o => stamp (tm_when t) < stamp o)
                      (occurrences rr))))
        (triggered r) /\
    tasks w' = tasks w ++
      concat (replicate
                (S (length (filter (fun o => stamp (tm_when t) < stamp o)
                              (occurrences rr))))
                (loop_calls r (actions r))) /\
    _reminders w' = delete (id r) (_reminders w) /\
    timers w' = filter (fun t' => tm_handle t' ≠ h) (timers w).
Proof.
  intros Hissued Hfind Hr Hrr Hnaive Hsorted Hacts Hfuel.
  destruct (deliver_on_time_run _ w h t r rr fuel Hissued Hfind Hr Hrr
              Hnaive Hsorted Hacts eq_refl Hfuel)
    as (w' & Hrun & Hbus & Htasks & Hreg & Htimers & _).
  by exists w'.
Qed.

(** ** The further properties at the sample inputs *)

Lemma trigger_raises_exactly_witness :
  (_handle_trigger 0%nat 12 (busy_world [say_action; titled_action])).1
    = Ok tt /\
  (_handle_trigger 0%nat 12 dotless_world).1 ≠ Ok tt.
Proof.
  split.
  - apply (proj1 (trigger_raises_exactly
                    (busy_world [say_action; titled_action]) 0%nat
                    (busy_reminder [say_action; titled_action]) 12 eq_refl)).
    split; [repeat constructor | by eexists].
  - intros Hok.
    apply (proj1 (trigger_raises_exactly dotless_world 0%nat
                    dotless_reminder 12 eq_refl)) in Hok.
    destruct Hok as [Hok _]. apply Forall_cons in Hok as [Hok _].
    discriminate.
Defined.

Lemma notify_target_reassembles_witness :
  exists domain name payload,
    dispatch (busy_reminder []) titled_action nothing =
      (Ok tt, add_tasks [{| sc_domain := domain; sc_service := name;
                            sc_data := payload |}] nothing) /\
    str_of (service titled_action) = (domain ++ String "." name)%string /\
    has_dot domain = false.
Proof.
  apply (notify_target_reassembles (busy_reminder []) titled_action nothing);
    reflexivity.
Defined.

Lemma tts_call_ignores_data_witness :
  exists payload,
    dispatch (busy_reminder []) say_action nothing =
      (Ok tt, add_tasks [{| sc_domain := "tts";
                            sc_service := "google_translate_say";
                            sc_data := payload |}] nothing) /\
    payload !! "entity_id" = Some (PStr "media_player.kitchen") /\
    payload !! "message" = Some (PStr "Take pills").
Proof.
  destruct (tts_call_ignores_data (busy_reminder []) say_action nothing
              eq_refl eq_refl)
    as (payload & Hrun & He & Hm & _).
  exists payload. repeat split; assumption.
Defined.

Lemma handle_add_registers_request_witness :
  exists l r,
    _reminders
      (handle_add sample_parse sample_rrulestr full_call "u1" nothing).2
      !! "u1" = Some l /\
    heap (handle_add sample_parse sample_rrulestr full_call "u1" nothing).2
      !! l = Some r /\
    id r = "u1" /\ start r = naive 12 /\ length (actions r) = 2%nat.
Proof.
  destruct (handle_add_registers_request sample_parse sample_rrulestr
              full_call "u1" nothing
              (handle_add sample_parse sample_rrulestr full_call "u1"
                 nothing).2)
    as (l & r & st & t & Hreg & Hobj & Hid & _ & _ & Hst & Hres & Hacts & _).
  - vm_compute. reflexivity.
  - exists l, r. split; [exact Hreg|]. split; [exact Hobj|].
    split; [exact Hid|]. split.
    + injection Hst as <-. simpl in Hres. by injection Hres.
    + symmetry. exact (Forall2_length _ _ _ Hacts).
Defined.

Lemma refused_action_rejects_request_witness :
  exists msg,
    handle_add sample_parse sample_rrulestr foreign_call "u1" nothing
    = (Raise (TypeError msg), nothing).
Proof.
  apply (refused_action_rejects_request sample_parse sample_rrulestr
           foreign_call "u1" nothing [titled_entry; foreign_entry] eq_refl).
  right. by left.
Defined.

Lemma invalid_rrule_rejected_witness :
  handle_add sample_parse sample_rrulestr hourly_call "u1" nothing
  = (Raise (ValueError "unknown rrule"), nothing).
Proof.
  apply (invalid_rrule_rejected sample_parse sample_rrulestr hourly_call
           "u1" nothing [] "Take pills" (StartTime (naive 12)) (naive 12)
           "FREQ=HOURLY"
           (ValueError "unknown rrule"));
    try reflexivity.
  discriminate.
Defined.

Lemma empty_rrule_is_one_shot_witness :
  Reminder_init sample_parse sample_rrulestr "Take pills"
    (StartTime (naive 12)) (Some "") [] "u1" =
  Reminder_init sample_parse (fun _ _ => Raise (TypeError "never asked"))
    "Take pills" (StartTime (naive 12)) (Some "") [] "u1".
Proof.
  apply (empty_rrule_is_one_shot sample_parse sample_rrulestr
           (fun _ _ => Raise (TypeError "never asked"))
           "Take pills" (StartTime (naive 12)) (Some "") [] "u1").
  reflexivity.
Defined.

Lemma handle_add_frame_witness :
  _reminders
    (handle_add sample_parse sample_rrulestr full_call "u1" daily_world).2
    !! "r2" = _reminders daily_world !! "r2" /\
  heap (handle_add sample_parse sample_rrulestr full_call "u1" daily_world).2
    !! 0%nat = heap daily_world !! 0%nat.
Proof.
  destruct (handle_add_frame sample_parse sample_rrulestr full_call "u1"
              daily_world)
    as (Hheap & Hreg & _).
  split.
  - apply Hreg. discriminate.
  - apply Hheap. apply elem_of_dom. exists daily_reminder. reflexivity.
Defined.

Lemma handle_trigger_frame_witness :
  timers daily_world `prefix_of`
    timers (_handle_trigger 0%nat 12 daily_world).2 /\
  bus daily_world `prefix_of` bus (_handle_trigger 0%nat 12 daily_world).2.
Proof.
  destruct (handle_trigger_frame daily_world 0%nat daily_reminder 12 eq_refl)
    as (_ & _ & _ & Ht & _ & Hb).
  split; assumption.
Defined.

Lemma retire_unregisters_twin_witness :
  exists w',
    _handle_trigger 0%nat 36 orphan_world = (Ok tt, w') /\
    _reminders w' !! "r2" = None /\
    timers w' = timers orphan_world /\
    heap w' = heap orphan_world.
Proof.
  apply (retire_unregisters_twin orphan_world 0%nat daily_reminder 1%nat 36);
    try (vm_compute; reflexivity).
  - discriminate.
  - constructor.
Defined.

Lemma schedule_twice_keeps_both_timers_witness :
  exists w',
    (_schedule 0%nat (naive 5) ≫= fun _ => _schedule 0%nat (utc 7)) daily_world
      = (Ok tt, w') /\
    timers w' = timers daily_world ++
      [{| tm_handle := 1%nat; tm_when := naive 5; tm_reminder := 0%nat |};
       {| tm_handle := 2%nat; tm_when := utc 7; tm_reminder := 0%nat |}] /\
    _cancel <$> heap w' !! 0%nat = Some (Some 2%nat) /\
    _reminders w' = _reminders daily_world.
Proof.
  apply (schedule_twice_keeps_both_timers daily_world 0%nat daily_reminder
           (naive 5) (utc 7) eq_refl).
Defined.

Lemma next_occurrence_ignores_lateness_witness :
  next_occurrence daily_reminder 30 = Ok (Some (naive 36)) /\
  next_occurrence daily_reminder 40 = Ok None /\
  next_occurrence aware_reminder 40 = Raise compare_error.
Proof.
  split; [|split].
  - apply (proj1 (next_occurrence_ignores_lateness daily_reminder 12 30
                    ltac:(lia)) (naive 36)); [reflexivity | simpl; lia].
  - apply (proj1 (proj2 (next_occurrence_ignores_lateness daily_reminder
                           36 40 ltac:(lia)))).
    reflexivity.
  - apply (proj2 (proj2 (next_occurrence_ignores_lateness aware_reminder
                           0 40 ltac:(lia)))).
    reflexivity.
Defined.

Lemma daily_world_issued t :
  t ∈ timers daily_world -> (tm_handle t < armed daily_world)%nat.
Proof.
  intros Ht. apply list_elem_of_singleton in Ht as ->. simpl. lia.
Defined.

Lemma registry_and_timers_agree_witness :
  consistent
    (fire 0%nat 12
       (handle_add sample_parse sample_rrulestr full_call "u1" nothing).2).2.
Proof.
  destruct registry_and_timers_agree as (Hinit & Hadd & Hfire).
  apply Hfire.
  - apply Hadd; [exact Hinit | reflexivity].
  - vm_compute. reflexivity.
Defined.

Lemma recurring_lifecycle_witness :
  exists w',
    deliver_on_time 3 0%nat daily_world
      = (Ok tt, w', [naive 12; naive 36]) /\
    length (bus w') = 2%nat /\
    _reminders w' !! "r2" = None /\
    timers w' = [].
Proof.
  destruct (recurring_lifecycle daily_world 0%nat
              {| tm_handle := 0%nat; tm_when := naive 12;
                 tm_reminder := 0%nat |}
              daily_reminder {| occurrences := [naive 12; naive 36] |} 3
              daily_world_issued eq_refl eq_refl eq_refl)
    as (w' & Hrun & Hbus & _ & Hreg & Htimers).
  - repeat constructor.
  - repeat constructor; unfold earlier; simpl; lia.
  - constructor.
  - vm_compute. lia.
  - exists w'. split; [exact Hrun|]. split; [by rewrite Hbus|].
    split; [by rewrite Hreg, lookup_delete_eq | exact Htimers].
Defined.
